(** * EventHandler: a synchronous callback dispatcher

    Shallow embedding of [src/eventhandler/__init__.py] (class
    [EventHandler]) and the properties of its registry, linking rules,
    dispatch ([fire]) and deferred queue ([append] / [loop]).

    Conventions of the embedding:
    - the private dict [self.__events] maps an event name to a Python list
      object.  List objects are mutable and shared (the iterator of [fire]
      keeps the list it started on while callbacks run), so the dict holds
      references and the list contents live in a store;
    - a dict is an association list in insertion order (the order in which
      Python shows its keys);
    - a method returns its Python result ([Returned v] or [Raised e]) next
      to the handler it leaves behind;
    - text printed on [stream_output] is kept as one [diagnostic] per
      [print] statement, carrying the values the f-string interpolates;
    - [verbose] and [tolerate_exceptions] are set by [__init__] and never
      assigned again by the class: they form a [Config] outside the mutable
      state. *)

From Stdlib Require Import String Ascii List Bool Arith ZArith Lia.
From stdpp Require Import base option list strings pretty.
Import ListNotations.

Local Open Scope string_scope.
Local Open Scope list_scope.

(** ** Python values *)

(** The classes the source tests with [isinstance]; every other class is
    [OtherType] with its name. *)
Inductive pytype :=
| FunctionType
| BuiltinFunctionType
| MethodType
| BuiltinMethodType
| OtherType (name : string).

(** Objects, up to what the handler can observe of them: their class,
    their identity and their [__name__].  [PyMethod] is a bound method:
    Python builds a new method object at each attribute access and compares
    them by the instance and the function they bind, which is what [==]
    (and therefore [in] and [list.remove]) sees.  [PyNamed] is an object
    of another class that has a [__name__] (a class such as [int], a
    module); [PyOther] is an object that has none (an [int], a [str],
    [None]). *)
Inductive pyobj :=
| PyFunction (id : nat) (name : string)
| PyBuiltin (id : nat) (name : string)
| PyMethod (self : nat) (func : nat) (name : string)
| PyNamed (cls : string) (id : nat) (name : string)
| PyOther (cls : string) (id : nat).

#[global] Instance pytype_eq_dec : EqDecision pytype.
Proof. solve_decision. Defined.

#[global] Instance pyobj_eq_dec : EqDecision pyobj.
Proof. solve_decision. Defined.

Definition type_of (o : pyobj) : pytype :=
  match o with
  | PyFunction _ _ => FunctionType
  | PyBuiltin _ _ => BuiltinFunctionType
  | PyMethod _ _ _ => MethodType
  | PyNamed cls _ _ | PyOther cls _ => OtherType cls
  end.

(** [isinstance(o, (t1, ..., tn))]; none of the four callable types can be
    subclassed, so the test is on the class itself. *)
Definition isinstance (o : pyobj) (classes : list pytype) : bool :=
  bool_decide (type_of o ∈ classes).

(** Exceptions.  [SystemExiting] stands for the classes that derive from
    [BaseException] without deriving from [Exception] ([SystemExit],
    [KeyboardInterrupt], [GeneratorExit]). *)
Inductive pyexc :=
| KeyError (key : string)
| AttributeError (cls : string) (attr : string)
| EventNotAllowedError (event_name : string) (registered : list string)
| OtherException (cls : string) (detail : string)
| SystemExiting (cls : string).

#[global] Instance pyexc_eq_dec : EqDecision pyexc.
Proof. solve_decision. Defined.

(** [isinstance(e, Exception)], the test of [except Exception as e]. *)
Definition is_Exception (e : pyexc) : bool :=
  match e with
  | SystemExiting _ => false
  | _ => true
  end.

Inductive result (A : Type) :=
| Returned (a : A)
| Raised (e : pyexc).
Arguments Returned {A} a.
Arguments Raised {A} e.

Definition is_raised {A} (r : result A) : bool :=
  match r with Raised _ => true | Returned _ => false end.

(** [o.__name__] *)
Definition getattr_name (o : pyobj) : result string :=
  match o with
  | PyFunction _ name | PyBuiltin _ name | PyMethod _ _ name
  | PyNamed _ _ name => Returned name
  | PyOther cls _ => Raised (AttributeError cls "__name__")
  end.

(** [*args] and [**kwargs] of a call that has bound its own parameters
    ([self], [event_name]). *)
Definition pyargs := list pyobj.
Definition pykwargs := list (string * pyobj).

(** ** Diagnostics written to [stream_output] *)

Inductive diagnostic :=
| MsgInit (registered : list string)
| MsgOmitRegistration (event_name : string)
| MsgOmitUnregister (event_name : string)
| MsgNotCallable (type : pytype)
| MsgCannotUnlinkEvent (event_name : string) (registered : list string)
| MsgAlreadyLinked (callback_name event_name : string)
| MsgNotLinked (callback_name event_name : string)
| MsgWarning (callback_name : string)
| MsgArguments (args : pyargs)
| MsgException (e : pyexc).

(** ** Dicts and lists as Python has them *)

Section Dict.
Context {V : Type}.

(** [d[k]] ([None] is Python's [KeyError]). *)
Fixpoint dict_get (k : string) (d : list (string * V)) : option V :=
  match d with
  | [] => None
  | (k', v) :: d' => if decide (k = k') then Some v else dict_get k d'
  end.

(** [k in d] *)
Definition dict_contains (k : string) (d : list (string * V)) : bool :=
  bool_decide (is_Some (dict_get k d)).

(** [d[k] = v]: an existing key keeps its place, a new key goes last. *)
Fixpoint dict_set (k : string) (v : V) (d : list (string * V)) : list (string * V) :=
  match d with
  | [] => [(k, v)]
  | (k', v') :: d' =>
      if decide (k = k') then (k', v) :: d' else (k', v') :: dict_set k v d'
  end.

(** [del d[k]] *)
Fixpoint dict_del (k : string) (d : list (string * V)) : list (string * V) :=
  match d with
  | [] => []
  | (k', v) :: d' => if decide (k = k') then d' else (k', v) :: dict_del k d'
  end.

(** [d.keys()] *)
Definition dict_keys (d : list (string * V)) : list string := map fst d.
End Dict.

(** [x in l] on a list of objects. *)
Definition py_in (x : pyobj) (l : list pyobj) : bool := bool_decide (x ∈ l).

(** [l.remove(x)]: drops the first element equal to [x]. *)
Fixpoint list_remove (x : pyobj) (l : list pyobj) : list pyobj :=
  match l with
  | [] => []
  | y :: l' => if decide (x = y) then l' else y :: list_remove x l'
  end.

(** ** The handler *)

Definition loc := nat.

(** A queued request: [(event_name, args, kwargs)]. *)
Definition request : Type := string * pyargs * pykwargs.

Record Config := mkConfig {
  verbose : bool;
  tolerate_exceptions : bool
}.

Record EventHandler := mkEventHandler {
  events : list (string * loc);       (* self.__events: name -> list object *)
  store : list (list pyobj);          (* contents of the list objects *)
  event_queue : list request;         (* self.__event_queue *)
  stream_output : list diagnostic     (* what was printed so far *)
}.

Definition set_events (ev : list (string * loc)) (eh : EventHandler) : EventHandler :=
  mkEventHandler ev (store eh) (event_queue eh) (stream_output eh).

Definition set_store (st : list (list pyobj)) (eh : EventHandler) : EventHandler :=
  mkEventHandler (events eh) st (event_queue eh) (stream_output eh).

Definition set_event_queue (q : list request) (eh : EventHandler) : EventHandler :=
  mkEventHandler (events eh) (store eh) q (stream_output eh).

(** [print(d, file=self.stream_output)] *)
Definition print (d : diagnostic) (eh : EventHandler) : EventHandler :=
  mkEventHandler (events eh) (store eh) (event_queue eh) (stream_output eh ++ [d]).

(** The contents of the list object at [l]. *)
Definition list_at (eh : EventHandler) (l : loc) : list pyobj :=
  default [] (store eh !! l).

(** The callbacks of an event, as [self.__events[event_name]] shows them. *)
Definition callbacks_of (eh : EventHandler) (event_name : string) : option (list pyobj) :=
  list_at eh <$> dict_get event_name (events eh).

(** The [events] property: the dict with the lists' contents. *)
Definition events_view (eh : EventHandler) : list (string * list pyobj) :=
  map (fun '(k, l) => (k, list_at eh l)) (events eh).

(** ** Registry methods *)

Section Methods.
Variable cfg : Config.

(** [print(...) if self.verbose else None] *)
Definition print_if_verbose (d : diagnostic) (eh : EventHandler) : EventHandler :=
  if verbose cfg then print d eh else eh.

Definition clear_events (eh : EventHandler) : bool * EventHandler :=
  (true, set_events [] eh).

Definition event_list (eh : EventHandler) : list string :=
  dict_keys (events eh).

Definition count_events (eh : EventHandler) : nat :=
  length (event_list eh).

Definition is_event_registered (event_name : string) (eh : EventHandler) : bool :=
  dict_contains event_name (events eh).

(** [self.__events[event_name] = []] makes a new list object. *)
Definition register_event (event_name : string) (eh : EventHandler)
  : bool * EventHandler :=
  if is_event_registered event_name eh then
    (false, print_if_verbose (MsgOmitRegistration event_name) eh)
  else
    (true,
     set_events (dict_set event_name (length (store eh)) (events eh))
       (set_store (store eh ++ [[]]) eh)).

Definition unregister_event (event_name : string) (eh : EventHandler)
  : bool * EventHandler :=
  if dict_contains event_name (events eh) then
    (true, set_events (dict_del event_name (events eh)) eh)
  else
    (false, print_if_verbose (MsgOmitUnregister event_name) eh).

Definition is_callable (func : pyobj) : bool :=
  isinstance func [FunctionType; BuiltinFunctionType; MethodType; BuiltinMethodType].

Definition is_callback_in_event (event_name : string) (callback : pyobj)
    (eh : EventHandler) : result bool :=
  match dict_get event_name (events eh) with
  | None => Raised (KeyError event_name)
  | Some l => Returned (py_in callback (list_at eh l))
  end.

(** A diagnostic that interpolates [callback.__name__]; the attribute is
    read only when the message is printed. *)
Definition print_named (msg : string -> diagnostic) (callback : pyobj)
    (eh : EventHandler) : result bool * EventHandler :=
  if verbose cfg then
    match getattr_name callback with
    | Raised e => (Raised e, eh)
    | Returned name => (Returned false, print (msg name) eh)
    end
  else (Returned false, eh).

Definition link (callback : pyobj) (event_name : string) (eh : EventHandler)
  : result bool * EventHandler :=
  if negb (is_callable callback) then
    (Returned false, print_if_verbose (MsgNotCallable (type_of callback)) eh)
  else if negb (is_event_registered event_name eh) then
    (Raised (EventNotAllowedError event_name (dict_keys (events eh))), eh)
  else
    match dict_get event_name (events eh) with
    | None => (Raised (KeyError event_name), eh)
    | Some l =>
        if negb (py_in callback (list_at eh l)) then
          (Returned true,
           set_store (<[l := list_at eh l ++ [callback]]> (store eh)) eh)
        else
          print_named (fun name => MsgAlreadyLinked name event_name) callback eh
    end.

(** The first [print] of [unlink] has no [if self.verbose]. *)
Definition unlink (callback : pyobj) (event_name : string) (eh : EventHandler)
  : result bool * EventHandler :=
  if negb (is_event_registered event_name eh) then
    (Returned false,
     print (MsgCannotUnlinkEvent event_name (dict_keys (events eh))) eh)
  else
    match dict_get event_name (events eh) with
    | None => (Raised (KeyError event_name), eh)
    | Some l =>
        if py_in callback (list_at eh l) then
          (Returned true,
           set_store (<[l := list_remove callback (list_at eh l)]> (store eh)) eh)
        else
          print_named (fun name => MsgNotLinked name event_name) callback eh
    end.

Definition append (event_name : string) (args : pyargs) (kwargs : pykwargs)
    (eh : EventHandler) : EventHandler :=
  set_event_queue (event_queue eh ++ [(event_name, args, kwargs)]) eh.

(** [append] called for each request of [requests] in turn. *)
Definition append_all (requests : list request) (eh : EventHandler) : EventHandler :=
  fold_left (fun eh '(event_name, args, kwargs) => append event_name args kwargs eh)
    requests eh.

(** [__init__]: both containers start empty, then each name is
    registered in turn. *)
Definition init (event_names : list string) : EventHandler :=
  let eh :=
    fold_left (fun eh event => snd (register_event event eh)) event_names
      (mkEventHandler [] [] [] []) in
  print_if_verbose (MsgInit (event_list eh)) eh.
End Methods.

(** ** Dispatch *)

(** One call made by [fire]: the callback, what it was given and how it
    ended.  The list of these is a ghost output of the model. *)
Record invocation := mkInvocation {
  inv_callback : pyobj;
  inv_args : pyargs;
  inv_kwargs : pykwargs;
  inv_result : result pyobj
}.

Section Dispatch.
(** What a callback can reach besides the handler. *)
Context {World : Type}.

Definition state : Type := EventHandler * World.

(** [callback( *args, **kwargs)].  A callback is code of the host
    program: it can call any method of the handler it was linked to
    (link, unlink, register, append, even fire), so its effect is a
    function of the handler and of the host's own state. *)
Variable call : pyobj -> pyargs -> pykwargs -> state -> result pyobj * state.
Variable cfg : Config.

Definition with_invocation {A} (i : invocation)
    (r : option (A * list invocation)) : option (A * list invocation) :=
  (fun '(a, tr) => (a, i :: tr)) <$> r.

(** The tolerant branch of the [except] clause. *)
Definition report (callback : pyobj) (args : pyargs) (e : pyexc)
    (eh : EventHandler) : result unit * EventHandler :=
  if verbose cfg then
    match getattr_name callback with
    | Raised e' => (Raised e', eh)
    | Returned name =>
        (Returned tt,
         print (MsgException e) (print (MsgArguments args) (print (MsgWarning name) eh)))
    end
  else (Returned tt, eh).

(** What the body of the [for] loop decides: go on to the next callback
    with this [all_ok], or let an exception out of [fire]. *)
Inductive verdict :=
| Continue (all_ok : bool)
| Propagate (e : pyexc).

(** The body of the [for] loop: the [try] statement around the call. *)
Definition invoke (callback : pyobj) (args : pyargs) (kwargs : pykwargs)
    (all_ok : bool) (s : state) : verdict * state * invocation :=
  let '(r, s') := call callback args kwargs s in
  let i := mkInvocation callback args kwargs r in
  match r with
  | Returned _ => (Continue all_ok, s', i)
  | Raised e =>
      if is_Exception e then
        if negb (tolerate_exceptions cfg) then (Propagate e, s', i)
        else
          match report callback args e (fst s') with
          | (Raised e', eh') => (Propagate e', (eh', snd s'), i)
          | (Returned _, eh') => (Continue false, (eh', snd s'), i)
          end
      else (Propagate e, s', i)
  end.

(** [for callback in <list object l>: ...] with the iterator at index
    [i].  The iterator reads the list as it is when the next element is
    asked for.  [None]: the fuel ran out before the loop ended. *)
Fixpoint fire_loop (fuel : nat) (l : loc) (i : nat) (args : pyargs)
    (kwargs : pykwargs) (all_ok : bool) (s : state)
  : option (result bool * state * list invocation) :=
  match list_at (fst s) l !! i with
  | None => Some (Returned all_ok, s, [])
  | Some callback =>
      match fuel with
      | 0 => None
      | S fuel' =>
          let '(v, s', inv) := invoke callback args kwargs all_ok s in
          with_invocation inv
            match v with
            | Continue all_ok' => fire_loop fuel' l (S i) args kwargs all_ok' s'
            | Propagate e => Some (Raised e, s', [])
            end
      end
  end.

Definition fire (fuel : nat) (event_name : string) (args : pyargs)
    (kwargs : pykwargs) (s : state)
  : option (result bool * state * list invocation) :=
  match dict_get event_name (events (fst s)) with
  | None => Some (Raised (KeyError event_name), s, [])
  | Some l => fire_loop fuel l 0 args kwargs true s
  end.

Definition with_invocations {A} (tr : list invocation)
    (r : option (A * list invocation)) : option (A * list invocation) :=
  (fun '(a, tr') => (a, tr ++ tr')) <$> r.

(** [while self.__event_queue: ...], at most [rounds] times round the
    loop; [fuel] bounds each [fire]. *)
Fixpoint loop_while (rounds fuel : nat) (all_ok : bool) (s : state)
  : option (result bool * state * list invocation) :=
  match event_queue (fst s) with
  | [] => Some (Returned all_ok, s, [])
  | (event_name, args, kwargs) :: rest =>
      match rounds with
      | 0 => None
      | S rounds' =>
          match fire fuel event_name args kwargs
                  (set_event_queue rest (fst s), snd s) with
          | None => None
          | Some (Raised e, s', tr) => Some (Raised e, s', tr)
          | Some (Returned ok, s', tr) =>
              with_invocations tr (loop_while rounds' fuel (ok && all_ok) s')
          end
      end
  end.

Definition loop (fuel : nat) (s : state)
  : option (result bool * state * list invocation) :=
  loop_while fuel fuel true s.

(** *** Notions used to state the properties *)

(** The [for] loop over a list that stays as it is: the callbacks of
    [callbacks], one after the other. *)
Fixpoint fire_over (callbacks : list pyobj) (args : pyargs)
    (kwargs : pykwargs) (all_ok : bool) (s : state)
  : result bool * state * list invocation :=
  match callbacks with
  | [] => (Returned all_ok, s, [])
  | callback :: rest =>
      let '(v, s', inv) := invoke callback args kwargs all_ok s in
      let '(r, s'', tr) :=
        match v with
        | Continue all_ok' => fire_over rest args kwargs all_ok' s'
        | Propagate e => (Raised e, s', [])
        end in
      (r, s'', inv :: tr)
  end.

(** Called with these arguments, [callback] leaves the list object [l]
    as it finds it. *)
Definition keeps_list (l : loc) (args : pyargs) (kwargs : pykwargs)
    (callback : pyobj) : Prop :=
  forall s, list_at (fst (snd (call callback args kwargs s))) l = list_at (fst s) l.

(** Called with these arguments, [callback] leaves the callbacks of
    [first] where it finds them, at the head of the list object [l]. *)
Definition keeps_first (first : list pyobj) (l : loc) (args : pyargs)
    (kwargs : pykwargs) (callback : pyobj) : Prop :=
  forall s,
    first `prefix_of` list_at (fst s) l ->
    first `prefix_of` list_at (fst (snd (call callback args kwargs s))) l.

(** Called with these arguments, [callback] takes no callback off the
    list object [l] and moves none; what it adds to the list are
    callbacks of [pool], added the way [link] adds them: at the end, each
    once, and none that the list holds already. *)
Definition only_links (pool : list pyobj) (l : loc) (args : pyargs)
    (kwargs : pykwargs) (callback : pyobj) : Prop :=
  forall s, exists new,
    list_at (fst (snd (call callback args kwargs s))) l = list_at (fst s) l ++ new /\
    NoDup new /\
    Forall (fun c => c ∈ pool /\ c ∉ list_at (fst s) l) new.

(** The host calling the callbacks of [callbacks] itself, one after the
    other from [s], when each of them returns: the state they leave and
    the calls made.  [None] when one of them raises. *)
Fixpoint call_each (callbacks : list pyobj) (args : pyargs) (kwargs : pykwargs)
    (s : state) : option (state * list invocation) :=
  match callbacks with
  | [] => Some (s, [])
  | callback :: rest =>
      match call callback args kwargs s with
      | (Returned v, s') =>
          with_invocation (mkInvocation callback args kwargs (Returned v))
            (call_each rest args kwargs s')
      | (Raised _, _) => None
      end
  end.

(** Called with these arguments, [callback] raises nothing but
    instances of [Exception]. *)
Definition raises_only_Exception (args : pyargs) (kwargs : pykwargs)
    (callback : pyobj) : Prop :=
  forall s e, fst (call callback args kwargs s) = Raised e -> is_Exception e = true.

(** [callback] neither reads nor writes the queue: with another queue in
    the handler it does the same and leaves that queue in place. *)
Definition ignores_queue (callback : pyobj) : Prop :=
  forall args kwargs q eh w,
    call callback args kwargs (set_event_queue q eh, w)
    = (fst (call callback args kwargs (eh, w)),
       (set_event_queue q (fst (snd (call callback args kwargs (eh, w)))),
        snd (snd (call callback args kwargs (eh, w))))).

(** A caller that fires the requests itself, one after the other, and is
    stopped by the first [fire] that raises: the results of the calls
    that returned, and the requests it did not reach. *)
Fixpoint fire_sequence (fuel : nat) (requests : list request) (s : state)
  : option (result (list bool) * state * list invocation * list request) :=
  match requests with
  | [] => Some (Returned [], s, [], [])
  | (event_name, args, kwargs) :: rest =>
      match fire fuel event_name args kwargs s with
      | None => None
      | Some (Raised e, s', tr) => Some (Raised e, s', tr, rest)
      | Some (Returned ok, s', tr) =>
          match fire_sequence fuel rest s' with
          | None => None
          | Some (Raised e, s'', tr', rest') => Some (Raised e, s'', tr ++ tr', rest')
          | Some (Returned oks, s'', tr', rest') =>
              Some (Returned (ok :: oks), s'', tr ++ tr', rest')
          end
      end
  end.

(** The same outcome with the queue [q] in the handler it leaves. *)
Definition requeue {A B} (q : list request) (o : A * state * B) : A * state * B :=
  (fst (fst o), (set_event_queue q (fst (snd (fst o))), snd (snd (fst o))), snd o).

(** What [loop] makes of the outcome of [fire_sequence]: the conjunction
    of the results, and the requests that were not reached still in the
    queue. *)
Definition drained
    (o : result (list bool) * state * list invocation * list request)
  : result bool * state * list invocation :=
  let '(r, s, tr, rest) := o in
  (match r with
   | Returned oks => Returned (forallb id oks)
   | Raised e => Raised e
   end,
   (set_event_queue rest (fst s), snd s), tr).

(** No list object holds the same callback twice. *)
Definition no_duplicates (eh : EventHandler) : Prop :=
  Forall NoDup (store eh).

(** The states a host program can bring the handler to through its
    methods. *)
Inductive reachable : state -> Prop :=
| reach_init event_names w :
    reachable (init cfg event_names, w)
| reach_host s w :
    reachable s -> reachable (fst s, w)
| reach_register event_name s :
    reachable s -> reachable (snd (register_event cfg event_name (fst s)), snd s)
| reach_unregister event_name s :
    reachable s -> reachable (snd (unregister_event cfg event_name (fst s)), snd s)
| reach_clear s :
    reachable s -> reachable (snd (clear_events (fst s)), snd s)
| reach_link callback event_name s :
    reachable s -> reachable (snd (link cfg callback event_name (fst s)), snd s)
| reach_unlink callback event_name s :
    reachable s -> reachable (snd (unlink cfg callback event_name (fst s)), snd s)
| reach_append event_name args kwargs s :
    reachable s -> reachable (append event_name args kwargs (fst s), snd s)
| reach_fire fuel event_name args kwargs s r s' tr :
    reachable s -> fire fuel event_name args kwargs s = Some (r, s', tr) ->
    reachable s'
| reach_loop fuel s r s' tr :
    reachable s -> loop fuel s = Some (r, s', tr) -> reachable s'.
End Dispatch.

(** ** A host program to run the handler on

    A dispatcher with the events ["ping"] and ["pong"], callbacks that
    append what they received to a shared log, and a few less polite
    callbacks.  The host's state is the log. *)

Module Demo.
Definition log : Type := list (string * pyargs).

Definition none : pyobj := PyOther "NoneType" 0.
Definition x : pyobj := PyOther "str" 1.

Definition recordA : pyobj := PyFunction 1 "recordA".
Definition recordB : pyobj := PyFunction 2 "recordB".
(** raises [ValueError] *)
Definition failing : pyobj := PyFunction 3 "failing".
(** calls [sys.exit()] *)
Definition exiting : pyobj := PyFunction 4 "exiting".
(** a one-shot listener: unlinks itself from ["ping"] when it runs *)
Definition once : pyobj := PyFunction 5 "once".
(** schedules a follow-up: [eh.append('pong', args, kwargs)] *)
Definition chain : pyobj := PyFunction 6 "chain".
(** brings a listener along: [eh.link(recordB, 'ping')] *)
Definition recruit : pyobj := PyFunction 7 "recruit".

Definition strict : Config := mkConfig false false.
Definition tolerant : Config := mkConfig false true.
Definition tolerant_verbose : Config := mkConfig true true.

(** The callbacks that touch nothing but the log. *)
Definition call_plain (callback : pyobj) (args : pyargs) (kwargs : pykwargs)
    (s : @state log) : result pyobj * @state log :=
  let '(eh, w) := s in
  match callback with
  | PyFunction 1 name | PyFunction 2 name =>
      (Returned none, (eh, w ++ [(name, args)]))
  | PyFunction 3 name =>
      (Raised (OtherException "ValueError" "boom"), (eh, w ++ [(name, args)]))
  | PyFunction 4 name =>
      (Raised (SystemExiting "SystemExit"), (eh, w ++ [(name, args)]))
  | PyOther cls _ =>
      (Raised (OtherException "TypeError" "object is not callable"), s)
  | _ => (Returned none, s)
  end.

(** All of them: [once], [chain] and [recruit] call back into the
    handler. *)
Definition call (cfg : Config) (callback : pyobj) (args : pyargs)
    (kwargs : pykwargs) (s : @state log) : result pyobj * @state log :=
  let '(eh, w) := s in
  match callback with
  | PyFunction 5 name =>
      (Returned none, (snd (unlink cfg once "ping" eh), w ++ [(name, args)]))
  | PyFunction 6 name =>
      (Returned none, (append "pong" args kwargs eh, w ++ [(name, args)]))
  | PyFunction 7 name =>
      let '(r, eh') := link cfg recordB "ping" eh in
      (match r with Returned _ => Returned none | Raised e => Raised e end,
       (eh', w ++ [(name, args)]))
  | _ => call_plain callback args kwargs s
  end.

(** [eh = EventHandler('ping', 'pong')] followed by [eh.link(cb, 'ping')]
    for each [cb], and [eh.link(recordB, 'pong')]. *)
Definition handler (cfg : Config) (callbacks : list pyobj) : EventHandler :=
  snd (link cfg recordB "pong"
         (fold_left (fun eh cb => snd (link cfg cb "ping" eh)) callbacks
            (init cfg ["ping"; "pong"]))).
End Demo.

(** ** The chat room of [src/tools/readme_code.py]

    A [ChatRoom] owns a handler with the events ["onNewuser"] and
    ["onMessage"] and links two of its methods to them; a [ChatBot] links
    two more, which call [say] of the room again from inside [fire].  The
    host's state is the room's fields, the lines printed on the standard
    output, and the [str] objects handed to [fire] as arguments (a callback
    receives references and reads the text behind them). *)

Module Chat.
Record world := mkWorld {
  messages : list (string * string);      (* self.__messages *)
  users : list (string * list pyobj);     (* self.__users *)
  stdout : list string;                   (* the lines printed *)
  strs : list string                      (* the str objects passed to fire *)
}.

Definition set_messages (m : list (string * string)) (w : world) : world :=
  mkWorld m (users w) (stdout w) (strs w).

Definition set_users (u : list (string * list pyobj)) (w : world) : world :=
  mkWorld (messages w) u (stdout w) (strs w).

(** [print(line)] *)
Definition print_line (line : string) (w : world) : world :=
  mkWorld (messages w) (users w) (stdout w ++ [line]) (strs w).

(** The reference under which the text [s] is passed as an argument. *)
Definition pass_str (s : string) (w : world) : pyobj * world :=
  (PyOther "str" (length (strs w)),
   mkWorld (messages w) (users w) (stdout w) (strs w ++ [s])).

(** The text behind a reference. *)
Definition str_of (w : world) (o : pyobj) : option string :=
  match o with
  | PyOther cls i => if decide (cls = "str") then strs w !! i else None
  | _ => None
  end.

Definition none : pyobj := PyOther "NoneType" 0.

(** The bound methods that get linked: two of the room (object 1), two of
    the bot (object 2). *)
Definition on_newuser_join : pyobj := PyMethod 1 1 "__on_newuser_join".
Definition on_message : pyobj := PyMethod 1 2 "__on_message".
Definition saludate_new_user : pyobj := PyMethod 2 3 "saludate_new_user".
Definition read_user_message : pyobj := PyMethod 2 4 "read_user_message".

(** [user_list]: the users that are not ['bot']. *)
Definition user_list (w : world) : list string :=
  filter (fun user => user <> "bot") (dict_keys (users w)).

(** The f-strings of the program. *)
Definition tab : string := String "009"%char "".

Definition join_line (user : string) (n : nat) : string :=
  "** ChatRoom info ** user " +:+ user +:+ " has joined the chat ** "
  +:+ pretty n +:+ " user/s **".

Definition message_line (user msg : string) : string :=
  user +:+ " says:" +:+ tab +:+ " " +:+ msg.

Definition hello (user : string) : string :=
  "Hello " +:+ user +:+ ", welcome to the chat room.".

Definition question (name : string) : string :=
  "Hey " +:+ name +:+ ", are there anyone here?".

Definition nope (user : string) : string :=
  "Nope " +:+ user +:+ ". Just you and me.".

Definition yes (user : string) (n : Z) : string :=
  "Yes " +:+ user +:+ ". there are " +:+ pretty n
  +:+ " non bots users in the room, you, and me.".

(** [EventHandler('onNewuser', 'onMessage')]: not verbose, strict. *)
Definition defaults : Config := mkConfig false false.

Definition RecursionError : pyexc :=
  OtherException "RecursionError" "maximum recursion depth exceeded".

Definition TypeError : pyexc :=
  OtherException "TypeError" "wrong arguments".

(** A method that ends without [return] of a value. *)
Definition returns_None (o : result pyobj * @state world) : result pyobj * @state world :=
  (match fst o with Returned _ => Returned none | Raised e => Raised e end, snd o).

(** The four callbacks, given what [say] of the room does ([say] is the
    method they call back) and the [name] of the bot.  The room fires with
    positional arguments only. *)
Definition callbacks (name : string)
    (say : string -> option string -> @state world -> result pyobj * @state world)
    (callback : pyobj) (args : pyargs) (kwargs : pykwargs) (s : @state world)
  : result pyobj * @state world :=
  match mapM (str_of (snd s)) args, kwargs with
  | Some [user], [] =>
      if decide (callback = on_newuser_join) then
        (Returned none,
         (fst s, print_line (join_line user (length (user_list (snd s)))) (snd s)))
      else if decide (callback = saludate_new_user) then
        returns_None (say "bot" (Some (hello user)) s)
      else (Raised TypeError, s)
  | Some [user; msg], [] =>
      if decide (callback = on_message) then
        (Returned none, (fst s, print_line (message_line user msg) (snd s)))
      else if decide (callback = read_user_message) then
        if decide (user = "bot") then (Returned none, s)
        else if decide (msg = question name) then
          let n := length (user_list (snd s)) in
          returns_None
            (if Nat.ltb n 1 then say name (Some (nope user)) s
             else if Nat.eqb n 2 then say name (Some (yes user (Z.of_nat n - 1))) s
             else say name (Some (yes user (Z.of_nat n - 2))) s)
        else (Returned none, s)
      else (Raised TypeError, s)
  | _, _ => (Raised TypeError, s)
  end.
Arguments callbacks : simpl never.

(** [self.event_handler.fire(...)] as a statement of [say]: the boolean is
    dropped and an exception goes on.  The lists of the room hold two
    callbacks each, so the fuel given to [fire] is enough; a [fire] that
    did not end would be reported like an exhausted depth. *)
Definition fired (o : option (result bool * @state world * list invocation))
    (s : @state world) : result pyobj * @state world :=
  match o with
  | Some (Returned _, s', _) => (Returned none, s')
  | Some (Raised e, s', _) => (Raised e, s')
  | None => (Raised RecursionError, s)
  end.

(** [ChatRoom.say(user, msg=None)].  [depth] is the number of nested
    calls of [say] that Python still allows: the callbacks of the bot call
    [say] again from inside [fire]. *)
Fixpoint say (depth : nat) (name user : string) (msg : option string)
    (s : @state world) : result pyobj * @state world :=
  match depth with
  | 0 => (Raised RecursionError, s)
  | S depth' =>
      let call := callbacks name (say depth' name) in
      let '(r, s1) :=
        if negb (dict_contains user (users (snd s))) then
          let '(u, w) :=
            pass_str user (set_users (dict_set user [] (users (snd s))) (snd s)) in
          fired (fire call defaults 2 "onNewuser" [u] [] (fst s, w)) (fst s, w)
        else (Returned none, s) in
      match r with
      | Raised e => (Raised e, s1)
      | Returned _ =>
          match msg with
          | None => (Returned none, s1)
          | Some m =>
              if decide (m = "") then (Returned none, s1)
              else
                let '(u, w) :=
                  pass_str user
                    (set_messages (messages (snd s1) ++ [(user, m)]) (snd s1)) in
                let '(mo, w') := pass_str m w in
                fired (fire call defaults 2 "onMessage" [u; mo] [] (fst s1, w'))
                  (fst s1, w')
          end
      end
  end.

(** [ChatRoom.__init__] *)
Definition ChatRoom_init : @state world :=
  (snd (link defaults on_message "onMessage"
          (snd (link defaults on_newuser_join "onNewuser"
                  (init defaults ["onNewuser"; "onMessage"])))),
   mkWorld [] [("bot", [])] [] []).

(** [ChatBot.__init__(chatroom)] *)
Definition ChatBot_init (s : @state world) : @state world :=
  (snd (link defaults read_user_message "onMessage"
          (snd (link defaults saludate_new_user "onNewuser" (fst s)))),
   snd s).

(** [chat = ChatRoom(); bot = ChatBot(chat)] *)
Definition room : @state world := ChatBot_init ChatRoom_init.

Definition handler : EventHandler := fst room.

(** The program under [if __name__ == '__main__']. *)
Definition main (depth : nat) : result pyobj * @state world :=
  fold_left
    (fun o '(user, msg) =>
       match fst o with
       | Raised _ => o
       | Returned _ => say depth "bot" user msg (snd o)
       end)
    [("sergio", Some "Hello World!");
     ("sergio", Some "Hey bot, are there anyone here?");
     ("david", Some "Hello everybody!");
     ("david", Some "Hey bot, are there anyone here?");
     ("sergio", Some "Hi david!");
     ("kate", None);
     ("kate", Some "Hey bot, are there anyone here?")]
    (Returned none, room).

(** *** Notions used to state the properties *)

(** The world after [say] has recorded the message and [__on_message] has
    printed it. *)
Definition posted (user m : string) (w : world) : world :=
  print_line (message_line user m)
    (snd (pass_str m (snd (pass_str user (set_messages (messages w ++ [(user, m)]) w))))).

(** What the bot answers to the question of [user] when the room has [n]
    users that are not the bot. *)
Definition answer (user : string) (n : nat) : string :=
  if Nat.ltb n 1 then nope user
  else if Nat.eqb n 2 then yes user (Z.of_nat n - 1)
  else yes user (Z.of_nat n - 2).
End Chat.

(** ** Notions for the registry as a whole *)

(** Every registered event has a list object of its own: the keys of the
    dict are distinct, so are the references it holds, and each reference
    is in the store. *)
Definition well_formed (eh : EventHandler) : Prop :=
  NoDup (dict_keys (events eh)) /\
  NoDup (map snd (events eh)) /\
  Forall (fun entry => snd entry < length (store eh)) (events eh).

(** What the tolerant, verbose [except] clause prints for the calls of
    [tr]: three lines for each exception it catches. *)
Definition reported (cfg : Config) (tr : list invocation) : list diagnostic :=
  if verbose cfg && tolerate_exceptions cfg then
    flat_map
      (fun inv =>
         match inv_result inv, getattr_name (inv_callback inv) with
         | Raised e, Returned name =>
             if is_Exception e then
               [MsgWarning name; MsgArguments (inv_args inv); MsgException e]
             else []
         | _, _ => []
         end) tr
  else [].

(** ** Notions for the calls of a run *)

Section Runs.
Context {World : Type}.
Variable call : pyobj -> pyargs -> pykwargs -> @state World -> result pyobj * @state World.
Variable cfg : Config.

(** The state [fire] goes on from when the call [inv] has ended in [s1]:
    in tolerant and verbose mode, the lines about the exception it caught
    are on the stream. *)
Definition handled (inv : invocation) (s1 : @state World) : @state World :=
  (fold_left (fun eh d => print d eh) (reported cfg [inv]) (fst s1), snd s1).

(** [tr] is a run of calls from [s] to [s']: each entry is a call that
    was made, in the state the entry before it left, and that ended as the
    entry says; [s'] is the state the last of them left. *)
Fixpoint calls_from (s : @state World) (tr : list invocation) (s' : @state World)
  : Prop :=
  match tr with
  | [] => s' = s
  | inv :: tr' =>
      inv_result inv = fst (call (inv_callback inv) (inv_args inv) (inv_kwargs inv) s) /\
      calls_from
        (handled inv (snd (call (inv_callback inv) (inv_args inv) (inv_kwargs inv) s)))
        tr' s'
  end.
End Runs.

(** * Properties *)

(** ** Dicts and list objects *)

Section DictFacts.
Context {V : Type}.
Implicit Types (d : list (string * V)) (k : string) (v : V).

Lemma dict_contains_true k d :
  dict_contains k d = true <-> is_Some (dict_get k d).
Proof. unfold dict_contains. by rewrite bool_decide_eq_true. Qed.

Lemma dict_contains_false k d :
  dict_contains k d = false <-> dict_get k d = None.
Proof.
  unfold dict_contains. rewrite bool_decide_eq_false.
  by rewrite eq_None_not_Some.
Qed.

Lemma dict_get_set_eq k v d : dict_get k (dict_set k v d) = Some v.
Proof.
  induction d as [|[k' v'] d IH]; simpl.
  - by rewrite decide_True.
  - destruct (decide (k = k')) as [->|Hne]; simpl.
    + by rewrite decide_True.
    + by rewrite decide_False.
Qed.

Lemma dict_get_set_ne k k' v d :
  k' <> k -> dict_get k' (dict_set k v d) = dict_get k' d.
Proof.
  intros Hne. induction d as [|[k0 v0] d IH]; simpl.
  - by rewrite decide_False.
  - destruct (decide (k = k0)) as [->|Hk]; simpl.
    + by rewrite !decide_False.
    + destruct (decide (k' = k0)); [done | apply IH].
Qed.

Lemma dict_keys_set_new k v d :
  dict_get k d = None -> dict_keys (dict_set k v d) = dict_keys d ++ [k].
Proof.
  unfold dict_keys. induction d as [|[k' v'] d IH]; simpl; [done|].
  destruct (decide (k = k')); [done|].
  intros Hd. simpl. by rewrite IH.
Qed.
End DictFacts.

Lemma list_at_alloc eh l : default [] ((store eh ++ [[]]) !! l) = list_at eh l.
Proof.
  unfold list_at. destruct (decide (l < length (store eh))) as [Hlt|Hge].
  - by rewrite lookup_app_l.
  - rewrite (lookup_ge_None_2 (store eh)); [|lia].
    rewrite lookup_app_r; [|lia].
    by destruct (l - length (store eh)) as [|[|?]].
Qed.

Lemma list_at_alloc_new (st : list (list pyobj)) :
  (st ++ [[]]) !! length st = Some [].
Proof. by rewrite lookup_app_r, Nat.sub_diag. Qed.

Lemma py_in_true x l : py_in x l = true <-> x ∈ l.
Proof. unfold py_in. by rewrite bool_decide_eq_true. Qed.

Lemma py_in_false x l : py_in x l = false <-> x ∉ l.
Proof. unfold py_in. by rewrite bool_decide_eq_false. Qed.

Lemma is_callable_false callback :
  is_callable callback = false <-> exists cls, type_of callback = OtherType cls.
Proof.
  split.
  - destruct callback; try discriminate; simpl; eauto.
  - intros [cls Hcls]. by destruct callback.
Qed.

Lemma is_callable_name callback :
  is_callable callback = true -> exists name, getattr_name callback = Returned name.
Proof. destruct callback; try discriminate; simpl; eauto. Qed.

(** ** The registry *)

(** C7. [register_event] on a name that is registered changes neither the
    dict nor any list object (so the event keeps its callbacks and the
    number of events stays the same) and returns [False]; on a name that
    is not registered it adds the name with an empty list, leaves the
    other events as they were, and returns [True]. *)
Theorem register_event_idempotent cfg event_name eh :
  let eh' := snd (register_event cfg event_name eh) in
  (is_event_registered event_name eh = true ->
     fst (register_event cfg event_name eh) = false /\
     events eh' = events eh /\ store eh' = store eh /\
     events_view eh' = events_view eh /\
     callbacks_of eh' event_name = callbacks_of eh event_name /\
     count_events eh' = count_events eh) /\
  (is_event_registered event_name eh = false ->
     fst (register_event cfg event_name eh) = true /\
     callbacks_of eh' event_name = Some [] /\
     is_event_registered event_name eh' = true /\
     event_list eh' = event_list eh ++ [event_name] /\
     count_events eh' = S (count_events eh) /\
     forall other, other <> event_name ->
       callbacks_of eh' other = callbacks_of eh other).
Proof.
  cbv zeta. unfold register_event. split; intros Hreg; rewrite Hreg; simpl.
  - unfold print_if_verbose. by destruct (verbose cfg).
  - apply dict_contains_false in Hreg.
    unfold callbacks_of, is_event_registered, count_events, event_list. simpl.
    rewrite dict_get_set_eq, dict_keys_set_new by done.
    repeat split.
    + unfold list_at. simpl. by rewrite list_at_alloc_new.
    + apply dict_contains_true. by rewrite dict_get_set_eq.
    + rewrite length_app. simpl. lia.
    + intros other Hne. rewrite dict_get_set_ne by done.
      destruct (dict_get other (events eh)) as [l|]; [|done]. simpl.
      f_equal. apply list_at_alloc.
Qed.

(** [link] puts a new callback at the tail of the list: the order of a
    list is the order in which its callbacks were linked. *)
Lemma link_new_appends cfg callback event_name eh l cbs :
  dict_get event_name (events eh) = Some l ->
  store eh !! l = Some cbs ->
  is_callable callback = true ->
  callback ∉ cbs ->
  fst (link cfg callback event_name eh) = Returned true /\
  callbacks_of (snd (link cfg callback event_name eh)) event_name
  = Some (cbs ++ [callback]).
Proof.
  intros Hl Hcbs Hcallable Hnew. unfold link, is_event_registered, dict_contains.
  rewrite Hcallable, Hl. simpl.
  assert (list_at eh l = cbs) as -> by (unfold list_at; by rewrite Hcbs).
  apply py_in_false in Hnew. rewrite Hnew. simpl. split; [done|].
  unfold callbacks_of, list_at. simpl. rewrite Hl. simpl.
  rewrite list_lookup_insert_eq; [done|]. by eapply lookup_lt_Some.
Qed.

(** C9. [link] answers a value that fails [is_callable] with [False]: it
    does not raise and leaves the dict, the list objects and the queue as
    they were (apart from the diagnostic of a verbose handler, the handler
    is the same).  The test comes first, so the event name needs not be
    registered. *)
Theorem link_not_callable_soft_failure cfg callback event_name eh :
  is_callable callback = false ->
  fst (link cfg callback event_name eh) = Returned false /\
  events (snd (link cfg callback event_name eh)) = events eh /\
  store (snd (link cfg callback event_name eh)) = store eh /\
  event_queue (snd (link cfg callback event_name eh)) = event_queue eh /\
  (verbose cfg = false -> snd (link cfg callback event_name eh) = eh).
Proof.
  intros Hc. unfold link. rewrite Hc. simpl.
  unfold print_if_verbose. by destruct (verbose cfg).
Qed.

Lemma link_not_callable_soft_failure_witness :
  is_event_registered "nowhere" (Demo.handler Demo.strict [Demo.recordA]) = false /\
  fst (link Demo.strict (PyOther "int" 7) "nowhere"
         (Demo.handler Demo.strict [Demo.recordA])) = Returned false.
Proof.
  split; [reflexivity|].
  apply (link_not_callable_soft_failure Demo.strict (PyOther "int" 7) "nowhere").
  reflexivity.
Defined.

(** C10. [is_callback_in_event] on a name that is not registered raises
    the [KeyError] of the dict lookup: it neither answers [False] nor
    raises [EventNotAllowedError], while [is_event_registered] answers
    [False] for the same name. *)
Theorem is_callback_in_event_unregistered event_name callback eh :
  is_event_registered event_name eh = false ->
  is_callback_in_event event_name callback eh = Raised (KeyError event_name) /\
  is_callback_in_event event_name callback eh <> Returned false /\
  forall registered,
    is_callback_in_event event_name callback eh
    <> Raised (EventNotAllowedError event_name registered).
Proof.
  intros Hreg%dict_contains_false. unfold is_callback_in_event.
  rewrite Hreg. by repeat split.
Qed.

Lemma is_callback_in_event_unregistered_witness :
  is_callback_in_event "nowhere" Demo.recordA
    (Demo.handler Demo.strict [Demo.recordA]) = Raised (KeyError "nowhere").
Proof.
  apply (is_callback_in_event_unregistered "nowhere" Demo.recordA).
  reflexivity.
Defined.

(** C2 (as the code has it). [unlink] on a name that is not registered
    returns [False]: it prints its message (whether verbose or not) and
    leaves the dict, the list objects and the queue as they were. *)
Theorem unlink_unregistered_returns_false cfg callback event_name eh :
  is_event_registered event_name eh = false ->
  fst (unlink cfg callback event_name eh) = Returned false /\
  events (snd (unlink cfg callback event_name eh)) = events eh /\
  store (snd (unlink cfg callback event_name eh)) = store eh /\
  event_queue (snd (unlink cfg callback event_name eh)) = event_queue eh /\
  stream_output (snd (unlink cfg callback event_name eh))
  = stream_output eh ++ [MsgCannotUnlinkEvent event_name (event_list eh)].
Proof. intros Hreg. unfold unlink. by rewrite Hreg. Qed.

Lemma unlink_unregistered_returns_false_witness :
  fst (unlink Demo.strict Demo.recordA "nowhere"
         (Demo.handler Demo.strict [Demo.recordA])) = Returned false.
Proof.
  apply (unlink_unregistered_returns_false Demo.strict Demo.recordA "nowhere").
  reflexivity.
Defined.

(** C2 does not hold as stated: on the handler of [Demo], ["nowhere"] is
    not registered, [link] raises [EventNotAllowedError]
    for it, and [unlink] returns instead of raising. *)
Lemma unlink_unregistered_does_not_raise :
  is_event_registered "nowhere" (Demo.handler Demo.strict [Demo.recordA]) = false /\
  fst (link Demo.strict Demo.recordA "nowhere"
         (Demo.handler Demo.strict [Demo.recordA]))
  = Raised (EventNotAllowedError "nowhere" ["ping"; "pong"]) /\
  ~ (exists e, fst (unlink Demo.strict Demo.recordA "nowhere"
                      (Demo.handler Demo.strict [Demo.recordA])) = Raised e).
Proof.
  split; [reflexivity|]. split; [reflexivity|].
  intros [e He]. vm_compute in He. discriminate He.
Qed.

(** ** Dispatch *)

(** C1 (as the code has it). [fire] on a name that is not registered, in
    particular on any name once [clear_events] has run, raises the
    [KeyError] of the dict lookup; no callback is invoked and nothing
    changes. *)
Theorem fire_unregistered_raises_KeyError {World} call cfg fuel event_name
    args kwargs (s : @state World) :
  is_event_registered event_name (fst s) = false \/
  (exists eh, fst s = snd (clear_events eh)) ->
  fire call cfg fuel event_name args kwargs s
  = Some (Raised (KeyError event_name), s, []).
Proof.
  intros Hreg. unfold fire.
  assert (dict_get event_name (events (fst s)) = None) as ->; [|done].
  destruct Hreg as [Hreg|[eh ->]]; [by apply dict_contains_false | done].
Qed.

Lemma fire_unregistered_raises_KeyError_witness :
  fire (Demo.call Demo.strict) Demo.strict 1 "ping" [Demo.x] []
    (snd (clear_events (Demo.handler Demo.strict [Demo.recordA])), [])
  = Some (Raised (KeyError "ping"),
          (snd (clear_events (Demo.handler Demo.strict [Demo.recordA])), []), []).
Proof.
  apply (fire_unregistered_raises_KeyError (Demo.call Demo.strict) Demo.strict 1
           "ping" [Demo.x] []
           (snd (clear_events (Demo.handler Demo.strict [Demo.recordA])), [])).
  right. exists (Demo.handler Demo.strict [Demo.recordA]). reflexivity.
Defined.

(** C1 does not hold as stated: after [clear_events], firing the event
    that was registered does not raise [EventNotAllowedError]. *)
Lemma fire_unregistered_not_EventNotAllowedError :
  ~ (exists registered s' tr,
       fire (Demo.call Demo.strict) Demo.strict 1 "ping" [Demo.x] []
         (snd (clear_events (Demo.handler Demo.strict [Demo.recordA])), [])
       = Some (Raised (EventNotAllowedError "ping" registered), s', tr)).
Proof. intros (registered & s' & tr & H). vm_compute in H. discriminate H. Qed.

Section DispatchFacts.
Context {World : Type}.
Variable call : pyobj -> pyargs -> pykwargs -> @state World -> result pyobj * @state World.
Variable cfg : Config.

Implicit Types (s : @state World) (eh : EventHandler) (l : loc).

(** *** The body of the loop *)

Lemma report_prints callback args e eh :
  events (snd (report cfg callback args e eh)) = events eh /\
  store (snd (report cfg callback args e eh)) = store eh /\
  event_queue (snd (report cfg callback args e eh)) = event_queue eh.
Proof.
  unfold report. destruct (verbose cfg); [|done].
  by destruct (getattr_name callback).
Qed.

Lemma report_callable callback args e eh :
  is_callable callback = true ->
  fst (report cfg callback args e eh) = Returned tt.
Proof.
  intros [name Hname]%is_callable_name. unfold report.
  destruct (verbose cfg); [|done]. by rewrite Hname.
Qed.

Lemma invoke_invocation callback args kwargs all_ok s :
  snd (invoke call cfg callback args kwargs all_ok s)
  = mkInvocation callback args kwargs (fst (call callback args kwargs s)).
Proof.
  unfold invoke. destruct (call callback args kwargs s) as [[v|e] s']; simpl; [done|].
  destruct (is_Exception e); [|done].
  destruct (negb (tolerate_exceptions cfg)); [done|].
  by destruct (report cfg callback args e (fst s')) as [[[]|e'] eh'].
Qed.

Lemma invoke_store callback args kwargs all_ok s :
  store (fst (snd (fst (invoke call cfg callback args kwargs all_ok s))))
  = store (fst (snd (call callback args kwargs s))).
Proof.
  unfold invoke. destruct (call callback args kwargs s) as [[v|e] s']; simpl; [done|].
  destruct (is_Exception e); [|done].
  destruct (negb (tolerate_exceptions cfg)); [done|].
  pose proof (report_prints callback args e (fst s')) as (_ & Hst & _).
  by destruct (report cfg callback args e (fst s')) as [[[]|e'] eh'].
Qed.

Lemma invoke_keeps_list l callback args kwargs all_ok s :
  keeps_list call l args kwargs callback ->
  list_at (fst (snd (fst (invoke call cfg callback args kwargs all_ok s)))) l
  = list_at (fst s) l.
Proof.
  intros Hkeep. rewrite <- (Hkeep s). unfold list_at. by rewrite invoke_store.
Qed.

(** *** What the body of the loop does with a call *)

Lemma invoke_handled callback args kwargs all_ok s :
  snd (fst (invoke call cfg callback args kwargs all_ok s))
  = handled cfg (mkInvocation callback args kwargs (fst (call callback args kwargs s)))
      (snd (call callback args kwargs s)).
Proof.
  unfold invoke, handled, reported, report.
  destruct (call callback args kwargs s) as [[v|e] [eh1 w1]]; simpl.
  { by destruct (verbose cfg && tolerate_exceptions cfg). }
  destruct (is_Exception e), (tolerate_exceptions cfg), (verbose cfg),
    (getattr_name callback) as [name|e']; done.
Qed.

Lemma invoke_verdict callback args kwargs all_ok s :
  match fst (fst (invoke call cfg callback args kwargs all_ok s)) with
  | Continue all_ok' =>
      all_ok' = all_ok && negb (is_raised (fst (call callback args kwargs s))) /\
      (tolerate_exceptions cfg = false ->
       is_raised (fst (call callback args kwargs s)) = false)
  | Propagate e =>
      is_raised (fst (call callback args kwargs s)) = true /\
      (is_callable callback = true ->
       fst (call callback args kwargs s) = Raised e /\
       (tolerate_exceptions cfg = true -> is_Exception e = false))
  end.
Proof.
  unfold invoke.
  destruct (call callback args kwargs s) as [[v|e] s1]; simpl.
  { by rewrite andb_true_r. }
  destruct (is_Exception e) eqn:Hexc; [|done].
  destruct (tolerate_exceptions cfg) eqn:Htol; simpl; [|done].
  pose proof (report_callable callback args e (fst s1)) as Hrep.
  destruct (report cfg callback args e (fst s1)) as [[[]|e'] eh']; simpl in *.
  - by rewrite andb_false_r.
  - split; [done|]. intros Hcb. by specialize (Hrep Hcb).
Qed.

(** *** The calls of [fire] are calls that were made *)

Lemma fire_loop_calls_from fuel : forall l i args kwargs all_ok s r s' tr,
  fire_loop call cfg fuel l i args kwargs all_ok s = Some (r, s', tr) ->
  calls_from call cfg s tr s' /\
  Forall (fun inv => inv_args inv = args /\ inv_kwargs inv = kwargs) tr.
Proof.
  induction fuel as [|fuel IH]; intros l i args kwargs all_ok s r s' tr; simpl;
    (destruct (list_at (fst s) l !! i) as [callback|]; [|by intros [= <- <- <-]]);
    [done|].
  pose proof (invoke_invocation callback args kwargs all_ok s) as Hinv.
  pose proof (invoke_handled callback args kwargs all_ok s) as Hs1.
  destruct (invoke call cfg callback args kwargs all_ok s) as [[v s1] inv].
  simpl in Hinv, Hs1. subst inv s1. destruct v as [all_ok'|e]; simpl.
  - destruct (fire_loop call cfg fuel l (S i) args kwargs all_ok' _)
      as [[[r0 s0] tr0]|] eqn:Hrest; [|done].
    simpl. intros [= <- <- <-]. apply IH in Hrest as [Hrun Hargs].
    split; [by split | by constructor].
  - intros [= <- <- <-]. split; [by split | by repeat constructor].
Qed.

Lemma fire_loop_result fuel : forall l i args kwargs all_ok s r s' tr,
  fire_loop call cfg fuel l i args kwargs all_ok s = Some (r, s', tr) ->
  match r with
  | Returned ok =>
      ok = all_ok && forallb (fun inv => negb (is_raised (inv_result inv))) tr /\
      (tolerate_exceptions cfg = false ->
       Forall (fun inv => is_raised (inv_result inv) = false) tr)
  | Raised e =>
      exists before inv,
        tr = before ++ [inv] /\
        is_raised (inv_result inv) = true /\
        (is_callable (inv_callback inv) = true ->
         inv_result inv = Raised e /\
         (tolerate_exceptions cfg = true -> is_Exception e = false))
  end.
Proof.
  induction fuel as [|fuel IH]; intros l i args kwargs all_ok s r s' tr; simpl;
    (destruct (list_at (fst s) l !! i) as [callback|];
       [|intros [= <- <- <-]; simpl; by rewrite andb_true_r]);
    [done|].
  pose proof (invoke_invocation callback args kwargs all_ok s) as Hinv.
  pose proof (invoke_verdict callback args kwargs all_ok s) as Hv.
  destruct (invoke call cfg callback args kwargs all_ok s) as [[v s1] inv].
  simpl in Hinv, Hv. subst inv. destruct v as [all_ok'|e]; simpl.
  - destruct (fire_loop call cfg fuel l (S i) args kwargs all_ok' s1)
      as [[[r0 s0] tr0]|] eqn:Hrest; [|done].
    simpl. intros [= <- <- <-]. apply IH in Hrest. destruct Hv as [-> Hstrict].
    destruct r0 as [ok|e].
    + destruct Hrest as [-> Hall]. simpl. split; [by rewrite andb_assoc|].
      intros Htol. constructor; [by apply Hstrict | by apply Hall].
    + destruct Hrest as (before & inv & -> & Hlast).
      by exists (mkInvocation callback args kwargs (fst (call callback args kwargs s))
                   :: before), inv.
  - intros [= <- <- <-].
    by exists [], (mkInvocation callback args kwargs (fst (call callback args kwargs s))).
Qed.

Lemma calls_from_last before : forall s inv s',
  calls_from call cfg s (before ++ [inv]) s' ->
  exists s_k,
    inv_result inv = fst (call (inv_callback inv) (inv_args inv) (inv_kwargs inv) s_k).
Proof.
  induction before as [|inv0 before IH]; intros s inv s'; simpl.
  - intros [Hr _]. by exists s.
  - intros [_ Hrest]. by apply IH in Hrest.
Qed.

(** *** Callbacks that link, and never unlink *)

Lemma only_links_keeps_first pool first l args kwargs callback :
  only_links call pool l args kwargs callback ->
  keeps_first call first l args kwargs callback.
Proof.
  intros Hlinks s Hfirst. destruct (Hlinks s) as (new & -> & _).
  etrans; [exact Hfirst|]. by apply prefix_app_r.
Qed.

Lemma keeps_list_only_links l args kwargs callback :
  keeps_list call l args kwargs callback <-> only_links call [] l args kwargs callback.
Proof.
  split.
  - intros Hkeep s. exists []. rewrite app_nil_r. split; [apply Hkeep|].
    split; constructor.
  - intros Hlinks s. destruct (Hlinks s) as (new & -> & _ & Hnew).
    destruct new as [|c new]; [by rewrite app_nil_r|].
    apply Forall_cons in Hnew as [[Hc%elem_of_nil _] _]. done.
Qed.

Lemma invoke_list_at l callback args kwargs all_ok s :
  list_at (fst (snd (fst (invoke call cfg callback args kwargs all_ok s)))) l
  = list_at (fst (snd (call callback args kwargs s))) l.
Proof. unfold list_at. by rewrite invoke_store. Qed.

Lemma fire_loop_only_links pool cbs l args kwargs :
  Forall (only_links call pool l args kwargs) (cbs ++ pool) ->
  forall n fuel i all_ok s extra,
    list_at (fst s) l = cbs ++ extra ->
    NoDup extra ->
    Forall (fun c => c ∈ pool) extra ->
    length cbs + length pool <= i + n ->
    n <= fuel ->
    exists r s' tr extra',
      fire_loop call cfg fuel l i args kwargs all_ok s = Some (r, s', tr) /\
      list_at (fst s') l = cbs ++ extra' /\
      Forall (fun c => c ∈ pool) extra' /\
      list_at (fst s) l `prefix_of` list_at (fst s') l /\
      map inv_callback tr `prefix_of` drop i (list_at (fst s') l) /\
      (is_raised r = false -> map inv_callback tr = drop i (list_at (fst s') l)).
Proof.
  intros Hlinks. induction n as [|n IH];
    intros fuel i all_ok s extra Hlist Hnd Hpool Hn Hfuel.
  all: assert (length extra <= length pool) as Hlen
    by (apply submseteq_length, NoDup_submseteq; [done|];
        intros c Hc; by eapply Forall_forall in Hpool).
  all: destruct (list_at (fst s) l !! i) as [callback|] eqn:Hnext.
  all: try (apply lookup_lt_Some in Hnext; rewrite Hlist, length_app in Hnext; lia).
  1,3: exists (Returned all_ok), s, [], extra;
    assert (fire_loop call cfg fuel l i args kwargs all_ok s = Some (Returned all_ok, s, []))
      as -> by (destruct fuel; simpl; by rewrite Hnext);
    apply lookup_ge_None_1 in Hnext;
    rewrite drop_ge by done; by repeat split.
  destruct fuel as [|fuel]; [lia|]. simpl. rewrite Hnext.
  assert (only_links call pool l args kwargs callback) as Hcb.
  { eapply Forall_forall; [exact Hlinks|]. apply list_elem_of_lookup_2 in Hnext.
    rewrite Hlist in Hnext. apply elem_of_app in Hnext as [Hin|Hin].
    - apply elem_of_app. by left.
    - apply elem_of_app. right. by eapply Forall_forall in Hpool. }
  destruct (Hcb s) as (new & Hnew & Hndnew & Hin).
  pose proof (invoke_list_at l callback args kwargs all_ok s) as Hs1.
  pose proof (invoke_invocation callback args kwargs all_ok s) as Hinv.
  destruct (invoke call cfg callback args kwargs all_ok s) as [[v s1] inv].
  simpl in Hs1, Hinv. rewrite Hnew in Hs1. subst inv.
  assert (list_at (fst s1) l !! i = Some callback) as Hnext1.
  { rewrite Hs1. by apply lookup_app_l_Some. }
  assert (Forall (fun c => c ∈ pool) (extra ++ new)) as Hpool1.
  { apply Forall_app. split; [done|]. eapply Forall_impl; [exact Hin|]. by intros c [Hc _]. }
  destruct v as [all_ok'|e].
  + destruct (IH fuel (S i) all_ok' s1 (extra ++ new))
      as (r & s' & tr & extra' & Hfire & Hlist' & Hpool' & Hpre & Htr & Hall).
    * by rewrite Hs1, Hlist, <- app_assoc.
    * apply NoDup_app. split; [done|]. split; [|done].
      intros c Hc Hc'. eapply Forall_forall in Hin as [_ Hout]; [|exact Hc'].
      apply Hout. rewrite Hlist. apply elem_of_app. by right.
    * done.
    * lia.
    * lia.
    * rewrite Hfire. simpl. eexists r, s', _, extra'.
      assert (list_at (fst s') l !! i = Some callback) as Hnext'.
      { by eapply prefix_lookup_Some. }
      rewrite (drop_S _ _ _ Hnext').
      split; [reflexivity|]. split; [done|]. split; [done|]. split; [|split].
      -- etrans; [|exact Hpre]. rewrite Hs1. by apply prefix_app_r.
      -- by apply prefix_cons.
      -- intros Hr. simpl. by rewrite Hall.
  + simpl. eexists _, _, _, (extra ++ new). split; [reflexivity|]. simpl.
    rewrite (drop_S _ _ _ Hnext1). split; [|split; [done|split; [|split; [|done]]]].
    * by rewrite Hs1, Hlist, <- app_assoc.
    * rewrite Hs1. by apply prefix_app_r.
    * apply prefix_cons, prefix_nil.
Qed.

Lemma fire_only_links pool fuel event_name args kwargs s l :
  dict_get event_name (events (fst s)) = Some l ->
  Forall (only_links call pool l args kwargs) (list_at (fst s) l ++ pool) ->
  length (list_at (fst s) l) + length pool <= fuel ->
  exists r s' tr linked,
    fire call cfg fuel event_name args kwargs s = Some (r, s', tr) /\
    list_at (fst s') l = list_at (fst s) l ++ linked /\
    Forall (fun c => c ∈ pool) linked /\
    map inv_callback tr `prefix_of` list_at (fst s') l /\
    (is_raised r = false -> map inv_callback tr = list_at (fst s') l).
Proof.
  intros Hl Hlinks Hfuel. unfold fire. rewrite Hl.
  destruct (fire_loop_only_links pool (list_at (fst s) l) l args kwargs Hlinks
              fuel fuel 0 true s [])
    as (r & s' & tr & linked & Hfire & Hlist & Hpool & _ & Htr & Hall);
    [by rewrite app_nil_r | constructor | constructor | lia | lia |].
  by exists r, s', tr, linked.
Qed.

(** *** A list that stays as it is *)

(** When the callbacks still to come leave the list object alone, the
    loop over the live list is the loop over its contents. *)
Lemma fire_loop_fire_over todo : forall fuel l i args kwargs all_ok s done,
  list_at (fst s) l = done ++ todo ->
  length done = i ->
  Forall (keeps_list call l args kwargs) todo ->
  length todo <= fuel ->
  fire_loop call cfg fuel l i args kwargs all_ok s
  = Some (fire_over call cfg todo args kwargs all_ok s).
Proof.
  induction todo as [|callback rest IH];
    intros fuel l i args kwargs all_ok s done Hlist Hi Hkeep Hfuel.
  - assert (list_at (fst s) l !! i = None) as Hend.
    { rewrite Hlist, app_nil_r. apply lookup_ge_None_2. lia. }
    destruct fuel; simpl; by rewrite Hend.
  - assert (list_at (fst s) l !! i = Some callback) as Hnext.
    { rewrite Hlist, lookup_app_r by lia. by replace (i - length done) with 0 by lia. }
    destruct fuel as [|fuel]; simpl in Hfuel; [lia|]. simpl. rewrite Hnext.
    apply Forall_cons in Hkeep as [Hcb Hrest].
    pose proof (invoke_keeps_list l callback args kwargs all_ok s Hcb) as Hsame.
    destruct (invoke call cfg callback args kwargs all_ok s) as [[v s'] inv].
    simpl in Hsame. destruct v as [all_ok'|e]; [|done].
    rewrite (IH fuel l (S i) args kwargs all_ok' s' (done ++ [callback])).
    + simpl. by destruct (fire_over call cfg rest args kwargs all_ok' s') as [[r s''] tr].
    + by rewrite Hsame, Hlist, <- app_assoc.
    + rewrite length_app. simpl. lia.
    + done.
    + lia.
Qed.

Lemma fire_fire_over fuel event_name args kwargs s l :
  dict_get event_name (events (fst s)) = Some l ->
  Forall (keeps_list call l args kwargs) (list_at (fst s) l) ->
  length (list_at (fst s) l) <= fuel ->
  fire call cfg fuel event_name args kwargs s
  = Some (fire_over call cfg (list_at (fst s) l) args kwargs true s).
Proof.
  intros Hl Hkeep Hfuel. unfold fire. rewrite Hl.
  by apply (fire_loop_fire_over _ fuel l 0 args kwargs true s []).
Qed.
Lemma fire_over_invocations callbacks : forall args kwargs all_ok s,
  map inv_callback (snd (fire_over call cfg callbacks args kwargs all_ok s))
    `prefix_of` callbacks /\
  Forall (fun i => inv_args i = args /\ inv_kwargs i = kwargs)
    (snd (fire_over call cfg callbacks args kwargs all_ok s)) /\
  (is_raised (fst (fst (fire_over call cfg callbacks args kwargs all_ok s))) = false ->
   map inv_callback (snd (fire_over call cfg callbacks args kwargs all_ok s))
   = callbacks).
Proof.
  induction callbacks as [|callback rest IH]; intros args kwargs all_ok s; simpl.
  - by repeat split.
  - pose proof (invoke_invocation callback args kwargs all_ok s) as Hinv.
    destruct (invoke call cfg callback args kwargs all_ok s) as [[v s'] inv].
    simpl in Hinv. subst inv. destruct v as [all_ok'|e]; simpl.
    + specialize (IH args kwargs all_ok' s').
      destruct (fire_over call cfg rest args kwargs all_ok' s') as [[r s''] tr].
      simpl in *. destruct IH as (Hpre & Hargs & Hall). repeat split.
      * by apply prefix_cons.
      * by constructor.
      * intros Hr. by rewrite Hall.
    + repeat split; [apply prefix_cons, prefix_nil | by repeat constructor | done].
Qed.


(** *** Tolerant mode *)


(** *** Strict mode *)

Lemma with_invocations_nil {A} (o : option (A * list invocation)) :
  with_invocations [] o = o.
Proof. by destruct o as [[a tr]|]. Qed.

Lemma with_invocation_with_invocations {A} inv tr (o : option (A * list invocation)) :
  with_invocation inv (with_invocations tr o) = with_invocations (inv :: tr) o.
Proof. by destruct o as [[a tr']|]. Qed.

Lemma fire_loop_call_each first before : forall fuel l i args kwargs all_ok s s_i tr_i,
  call_each call before args kwargs s = Some (s_i, tr_i) ->
  Forall (keeps_first call first l args kwargs) before ->
  first `prefix_of` list_at (fst s) l ->
  (forall k callback, before !! k = Some callback -> first !! (i + k) = Some callback) ->
  length before <= fuel ->
  fire_loop call cfg fuel l i args kwargs all_ok s
  = with_invocations tr_i
      (fire_loop call cfg (fuel - length before) l (i + length before) args kwargs
         all_ok s_i) /\
  first `prefix_of` list_at (fst s_i) l /\
  map inv_callback tr_i = before.
Proof.
  induction before as [|callback rest IH];
    intros fuel l i args kwargs all_ok s s_i tr_i Heach Hkeep Hfirst Hlist Hfuel;
    simpl in *.
  - injection Heach as <- <-.
    by rewrite with_invocations_nil, Nat.sub_0_r, Nat.add_0_r.
  - destruct fuel as [|fuel]; [lia|].
    pose proof (Hlist 0 callback eq_refl) as Hnext. rewrite Nat.add_0_r in Hnext.
    apply (prefix_lookup_Some _ _ _ _ Hnext) in Hfirst as Hnext'.
    apply Forall_cons in Hkeep as [Hcb Hrest]. specialize (Hcb s Hfirst).
    simpl. rewrite Hnext'. unfold invoke.
    destruct (call callback args kwargs s) as [[v|e] s1]; [|done]. simpl in Hcb.
    destruct (call_each call rest args kwargs s1) as [[s2 tr2]|] eqn:Heach2; [|done].
    injection Heach as <- <-.
    destruct (IH fuel l (S i) args kwargs all_ok s1 s2 tr2) as (Hloop & Hpre & Hmap);
      [done | done | done | | lia |].
    { intros k cb Hk. replace (S i + k) with (i + S k) by lia. by apply Hlist. }
    rewrite Hloop, with_invocation_with_invocations, Nat.add_succ_r.
    split; [done|]. split; [done | by rewrite <- Hmap].
Qed.

End DispatchFacts.

(** ** The deferred queue *)

Lemma append_all_queue requests eh :
  append_all requests eh = set_event_queue (event_queue eh ++ requests) eh.
Proof.
  revert eh. induction requests as [|[[event_name args] kwargs] rest IH]; intros eh.
  - simpl. rewrite app_nil_r. by destruct eh.
  - simpl. rewrite IH. unfold append, set_event_queue. simpl.
    by rewrite <- app_assoc.
Qed.

Lemma set_event_queue_twice q q' eh :
  set_event_queue q (set_event_queue q' eh) = set_event_queue q eh.
Proof. done. Qed.

Section QueueFacts.
Context {World : Type}.
Variable call : pyobj -> pyargs -> pykwargs -> @state World -> result pyobj * @state World.
Variable cfg : Config.
Hypothesis call_ignores_queue : forall callback, ignores_queue call callback.

Lemma report_requeue callback args e q eh :
  report cfg callback args e (set_event_queue q eh)
  = (fst (report cfg callback args e eh),
     set_event_queue q (snd (report cfg callback args e eh))).
Proof.
  unfold report. destruct (verbose cfg); [|done].
  by destruct (getattr_name callback).
Qed.

Lemma invoke_requeue callback args kwargs all_ok q eh w :
  invoke call cfg callback args kwargs all_ok (set_event_queue q eh, w)
  = requeue q (invoke call cfg callback args kwargs all_ok (eh, w)).
Proof.
  unfold invoke. rewrite call_ignores_queue.
  destruct (call callback args kwargs (eh, w)) as [[v|e] [eh' w']]; simpl; [done|].
  destruct (is_Exception e); [|done].
  destruct (negb (tolerate_exceptions cfg)); [done|].
  rewrite report_requeue.
  by destruct (report cfg callback args e eh') as [[[]|e'] eh''].
Qed.

Lemma fire_loop_requeue fuel : forall l i args kwargs all_ok q eh w,
  fire_loop call cfg fuel l i args kwargs all_ok (set_event_queue q eh, w)
  = requeue q <$> fire_loop call cfg fuel l i args kwargs all_ok (eh, w).
Proof.
  induction fuel as [|fuel IH]; intros l i args kwargs all_ok q eh w; simpl;
    change (list_at (set_event_queue q eh) l) with (list_at eh l);
    destruct (list_at eh l !! i) as [callback|]; try done.
  rewrite invoke_requeue.
  destruct (invoke call cfg callback args kwargs all_ok (eh, w)) as [[v [eh' w']] inv].
  unfold requeue at 1. simpl. destruct v as [all_ok'|e]; [|done].
  rewrite IH.
  by destruct (fire_loop call cfg fuel l (S i) args kwargs all_ok' (eh', w'))
    as [[[r [eh'' w'']] tr]|].
Qed.

Lemma fire_requeue fuel event_name args kwargs q eh w :
  fire call cfg fuel event_name args kwargs (set_event_queue q eh, w)
  = requeue q <$> fire call cfg fuel event_name args kwargs (eh, w).
Proof.
  unfold fire. simpl. destruct (dict_get event_name (events eh)); [|done].
  apply fire_loop_requeue.
Qed.

(** With callbacks that leave the queue alone, draining a queue is
    firing its requests in order. *)
Lemma loop_while_fire_sequence requests : forall rounds fuel all_ok eh w,
  length requests <= rounds ->
  loop_while call cfg rounds fuel all_ok (set_event_queue requests eh, w)
  = (fun o => (match fst (fst (drained o)) with
               | Returned ok => Returned (ok && all_ok)
               | Raised e => Raised e
               end, snd (fst (drained o)), snd (drained o)))
    <$> fire_sequence call cfg fuel requests (eh, w).
Proof.
  induction requests as [|[[event_name args] kwargs] rest IH];
    intros rounds fuel all_ok eh w Hrounds.
  - by destruct rounds.
  - destruct rounds as [|rounds]; simpl in Hrounds; [lia|]. simpl.
    rewrite set_event_queue_twice, fire_requeue.
    destruct (fire call cfg fuel event_name args kwargs (eh, w))
      as [[[[ok|e] [eh' w']] tr]|]; simpl; try done.
    rewrite IH by lia.
    destruct (fire_sequence call cfg fuel rest (eh', w'))
      as [[[[[oks|e] [eh'' w'']] tr'] rest']|]; simpl; try done.
    by destruct (forallb id oks), ok, all_ok.
Qed.
End QueueFacts.

(** [loop] returns only once the queue is empty, whatever the callbacks
    do. *)
Lemma loop_while_returns_empty {World} call cfg rounds :
  forall fuel all_ok (s : @state World) ok s' tr,
    loop_while call cfg rounds fuel all_ok s = Some (Returned ok, s', tr) ->
    event_queue (fst s') = [].
Proof.
  induction rounds as [|rounds IH]; intros fuel all_ok s ok s' tr; simpl.
  - destruct (event_queue (fst s)) as [|[[event_name args] kwargs] rest] eqn:Hq; [|done].
    by intros [= _ <- _].
  - destruct (event_queue (fst s)) as [|[[event_name args] kwargs] rest] eqn:Hq.
    { by intros [= _ <- _]. }
    destruct (fire call cfg fuel event_name args kwargs _) as [[[[ok1|e] s1] tr1]|];
      try done.
    destruct (loop_while call cfg rounds fuel (ok1 && all_ok) s1)
      as [[[r2 s2] tr2]|] eqn:Hrest; [|done].
    simpl. intros [= -> <- _]. by eapply IH.
Qed.

(** C6 (as the code has it). With callbacks that leave the queue alone:
    after any sequence of [append] calls, [loop] (given fuel for the
    requests in the queue) does what a caller does who fires the queued
    requests itself, oldest first, with the same arguments, and stops at
    the first [fire] that raises.  The callbacks invoked are the same in
    the same order, the handler and the host end in the same state, and
    [loop] returns the conjunction of the results of the calls to [fire];
    the requests that were not reached stay in the queue, and when [loop]
    returns the queue is empty. *)
Theorem loop_fires_appended_requests {World} call cfg fuel requests eh (w : World) :
  (forall callback, ignores_queue call callback) ->
  length (event_queue eh ++ requests) <= fuel ->
  loop call cfg fuel (append_all requests eh, w)
  = drained <$> fire_sequence call cfg fuel (event_queue eh ++ requests)
                  (set_event_queue [] eh, w) /\
  (forall ok s' tr,
     loop call cfg fuel (append_all requests eh, w) = Some (Returned ok, s', tr) ->
     event_queue (fst s') = []).
Proof.
  intros Hcall Hfuel. split; [|intros ok s' tr; apply loop_while_returns_empty].
  unfold loop. rewrite append_all_queue.
  change (set_event_queue (event_queue eh ++ requests) eh)
    with (set_event_queue (event_queue eh ++ requests) (set_event_queue [] eh)).
  rewrite loop_while_fire_sequence by done.
  destruct (fire_sequence call cfg fuel (event_queue eh ++ requests) (set_event_queue [] eh, w))
    as [[[[[oks|e] s'] tr] rest]|]; simpl; try done.
  by rewrite andb_true_r.
Qed.

(** ** No callback twice in a list *)

Lemma list_remove_elem_of x z l : z ∈ list_remove x l -> z ∈ l.
Proof.
  induction l as [|y l IH]; simpl; [done|].
  destruct (decide (x = y)); [by right|].
  intros [->|Hz]%elem_of_cons; [by left | by right; apply IH].
Qed.

Lemma list_remove_NoDup x l : NoDup l -> NoDup (list_remove x l).
Proof.
  induction l as [|y l IH]; simpl; [done|].
  intros [Hy Hl]%NoDup_cons. destruct (decide (x = y)); [done|].
  apply NoDup_cons. split; [|by apply IH].
  intros Hin. by apply Hy, (list_remove_elem_of x).
Qed.

Lemma no_duplicates_list_at eh l : no_duplicates eh -> NoDup (list_at eh l).
Proof.
  intros Hnd. unfold list_at. destruct (store eh !! l) as [cbs|] eqn:Hl; simpl.
  - by apply (Forall_lookup_1 _ _ _ _ Hnd Hl).
  - apply NoDup_nil_2.
Qed.

Lemma no_duplicates_callbacks_of eh event_name cbs :
  no_duplicates eh -> callbacks_of eh event_name = Some cbs -> NoDup cbs.
Proof.
  intros Hnd. unfold callbacks_of.
  destruct (dict_get event_name (events eh)) as [l|]; [|done].
  intros [= <-]. by apply no_duplicates_list_at.
Qed.

Section Methods_no_duplicates.
Variable cfg : Config.

Lemma print_if_verbose_store d eh :
  events (print_if_verbose cfg d eh) = events eh /\
  store (print_if_verbose cfg d eh) = store eh.
Proof. unfold print_if_verbose. by destruct (verbose cfg). Qed.

Lemma print_named_store msg callback eh :
  events (snd (print_named cfg msg callback eh)) = events eh /\
  store (snd (print_named cfg msg callback eh)) = store eh.
Proof.
  unfold print_named. destruct (verbose cfg); [|done].
  by destruct (getattr_name callback).
Qed.

Lemma register_event_no_duplicates event_name eh :
  no_duplicates eh -> no_duplicates (snd (register_event cfg event_name eh)).
Proof.
  unfold no_duplicates, register_event. intros Hnd.
  destruct (is_event_registered event_name eh); simpl.
  - by rewrite (proj2 (print_if_verbose_store _ eh)).
  - apply Forall_app. split; [done|]. apply Forall_singleton, NoDup_nil_2.
Qed.

Lemma unregister_event_no_duplicates event_name eh :
  no_duplicates eh -> no_duplicates (snd (unregister_event cfg event_name eh)).
Proof.
  unfold no_duplicates, unregister_event. intros Hnd.
  destruct (dict_contains event_name (events eh)); simpl; [done|].
  by rewrite (proj2 (print_if_verbose_store _ eh)).
Qed.

Lemma link_no_duplicates callback event_name eh :
  no_duplicates eh -> no_duplicates (snd (link cfg callback event_name eh)).
Proof.
  intros Hnd. unfold link.
  destruct (negb (is_callable callback)); simpl.
  { unfold no_duplicates. by rewrite (proj2 (print_if_verbose_store _ eh)). }
  destruct (negb (is_event_registered event_name eh)); simpl; [done|].
  destruct (dict_get event_name (events eh)) as [l|]; [|done].
  destruct (py_in callback (list_at eh l)) eqn:Hin; simpl.
  - unfold no_duplicates. by rewrite (proj2 (print_named_store _ callback eh)).
  - apply py_in_false in Hin. apply Forall_insert; [done|].
    apply NoDup_app. split; [by apply no_duplicates_list_at|].
    split; [|apply NoDup_singleton].
    intros y Hy ->%list_elem_of_singleton. done.
Qed.

Lemma unlink_no_duplicates callback event_name eh :
  no_duplicates eh -> no_duplicates (snd (unlink cfg callback event_name eh)).
Proof.
  intros Hnd. unfold unlink.
  destruct (negb (is_event_registered event_name eh)); simpl; [done|].
  destruct (dict_get event_name (events eh)) as [l|]; [|done].
  destruct (py_in callback (list_at eh l)); simpl.
  - apply Forall_insert; [done|].
    by apply list_remove_NoDup, no_duplicates_list_at.
  - unfold no_duplicates. by rewrite (proj2 (print_named_store _ callback eh)).
Qed.

Lemma init_no_duplicates event_names : no_duplicates (init cfg event_names).
Proof.
  unfold init.
  assert (forall eh, no_duplicates eh ->
            no_duplicates (fold_left (fun eh event => snd (register_event cfg event eh))
                             event_names eh)) as Hfold.
  { induction event_names as [|event rest IH]; intros eh Hnd; simpl; [done|].
    by apply IH, register_event_no_duplicates. }
  unfold no_duplicates at 1. rewrite (proj2 (print_if_verbose_store _ _)).
  apply Hfold. constructor.
Qed.
End Methods_no_duplicates.

Section Dispatch_no_duplicates.
Context {World : Type}.
Variable call : pyobj -> pyargs -> pykwargs -> @state World -> result pyobj * @state World.
Variable cfg : Config.

(** The callbacks, which reach the lists through the methods of the
    handler, do not break the invariant either. *)
Hypothesis call_no_duplicates : forall callback args kwargs s,
  no_duplicates (fst s) -> no_duplicates (fst (snd (call callback args kwargs s))).

Lemma fire_loop_no_duplicates fuel : forall l i args kwargs all_ok s r s' tr,
  no_duplicates (fst s) ->
  fire_loop call cfg fuel l i args kwargs all_ok s = Some (r, s', tr) ->
  no_duplicates (fst s').
Proof.
  induction fuel as [|fuel IH]; intros l i args kwargs all_ok s r s' tr Hnd; simpl;
    destruct (list_at (fst s) l !! i) as [callback|]; try done;
    try by intros [= _ <- _].
  pose proof (invoke_store call cfg callback args kwargs all_ok s) as Hst.
  pose proof (call_no_duplicates callback args kwargs s Hnd) as Hnd'.
  unfold no_duplicates in Hnd'. rewrite <- Hst in Hnd'.
  destruct (invoke call cfg callback args kwargs all_ok s) as [[v s1] inv].
  simpl in Hnd'. destruct v as [all_ok'|e]; simpl.
  - destruct (fire_loop call cfg fuel l (S i) args kwargs all_ok' s1)
      as [[[r2 s2] tr2]|] eqn:Hrest; [|done].
    simpl. intros [= _ <- _]. by eapply IH.
  - by intros [= _ <- _].
Qed.

Lemma fire_no_duplicates fuel event_name args kwargs s r s' tr :
  no_duplicates (fst s) ->
  fire call cfg fuel event_name args kwargs s = Some (r, s', tr) ->
  no_duplicates (fst s').
Proof.
  intros Hnd. unfold fire.
  destruct (dict_get event_name (events (fst s))) as [l|].
  - by apply fire_loop_no_duplicates.
  - by intros [= _ <- _].
Qed.

Lemma loop_while_no_duplicates rounds : forall fuel all_ok s r s' tr,
  no_duplicates (fst s) ->
  loop_while call cfg rounds fuel all_ok s = Some (r, s', tr) ->
  no_duplicates (fst s').
Proof.
  induction rounds as [|rounds IH]; intros fuel all_ok s r s' tr Hnd; simpl;
    destruct (event_queue (fst s)) as [|[[event_name args] kwargs] rest];
    try done; try by intros [= _ <- _].
  destruct (fire call cfg fuel event_name args kwargs _)
    as [[[r1 s1] tr1]|] eqn:Hfire; [|done].
  apply fire_no_duplicates in Hfire; [|done].
  destruct r1 as [ok|e]; [|by intros [= _ <- _]].
  destruct (loop_while call cfg rounds fuel (ok && all_ok) s1)
    as [[[r2 s2] tr2]|] eqn:Hrest; [|done].
  simpl. intros [= _ <- _]. by eapply IH.
Qed.

Lemma reachable_no_duplicates s :
  reachable call cfg s -> no_duplicates (fst s).
Proof.
  induction 1; simpl.
  - apply init_no_duplicates.
  - done.
  - by apply register_event_no_duplicates.
  - by apply unregister_event_no_duplicates.
  - done.
  - by apply link_no_duplicates.
  - by apply unlink_no_duplicates.
  - done.
  - by eapply fire_no_duplicates.
  - by eapply loop_while_no_duplicates.
Qed.
End Dispatch_no_duplicates.


(** ** The host program of [Demo] *)

Lemma Demo_call_plain_ignores_queue callback :
  ignores_queue Demo.call_plain callback.
Proof.
  intros args kwargs q eh w.
  destruct callback as [[|[|[|[|[|id]]]]] name|id name|self func name|cls id name|cls id];
    reflexivity.
Qed.

Lemma Demo_call_no_duplicates cfg callback args kwargs (s : @state Demo.log) :
  no_duplicates (fst s) ->
  no_duplicates (fst (snd (Demo.call cfg callback args kwargs s))).
Proof.
  destruct s as [eh w]. intros Hnd.
  destruct callback as [[|[|[|[|[|[|[|[|id]]]]]]]] name|id name|self func name|cls id name|cls id];
    simpl; try done.
  - by apply unlink_no_duplicates.
  - pose proof (link_no_duplicates cfg Demo.recordB "ping" eh Hnd) as Hlink.
    by destruct (link cfg Demo.recordB "ping" eh).
Qed.

Lemma Demo_call_plain_keeps_list l args kwargs callback :
  keeps_list Demo.call_plain l args kwargs callback.
Proof.
  intros [eh w].
  destruct callback as [[|[|[|[|[|id]]]]] name|id name|self func name|cls id name|cls id];
    reflexivity.
Qed.

Lemma Demo_handler_reachable cfg callbacks :
  reachable (Demo.call cfg) cfg (Demo.handler cfg callbacks, []).
Proof.
  unfold Demo.handler.
  assert (forall eh, reachable (Demo.call cfg) cfg (eh, []) ->
            reachable (Demo.call cfg) cfg
              (fold_left (fun eh cb => snd (link cfg cb "ping" eh)) callbacks eh, []))
    as Hfold.
  { induction callbacks as [|cb rest IH]; intros eh Heh; simpl; [done|].
    apply IH. exact (reach_link _ _ cb "ping" (eh, []) Heh). }
  exact (reach_link _ _ Demo.recordB "pong" (_, []) (Hfold _ (reach_init _ _ _ _))).
Qed.

Lemma link_raises_Exception cfg callback event_name eh e :
  fst (link cfg callback event_name eh) = Raised e -> is_Exception e = true.
Proof.
  unfold link. destruct (negb (is_callable callback)); [done|].
  destruct (negb (is_event_registered event_name eh)); [by intros [= <-]|].
  destruct (dict_get event_name (events eh)) as [l|]; [|by intros [= <-]].
  destruct (negb (py_in callback (list_at eh l))); [done|].
  unfold print_named. destruct (verbose cfg); [|done].
  destruct callback; simpl; try done. by intros [= <-].
Qed.

Lemma link_only_links cfg callback event_name eh l :
  exists new,
    list_at (snd (link cfg callback event_name eh)) l = list_at eh l ++ new /\
    NoDup new /\ Forall (fun c => c ∈ [callback] /\ c ∉ list_at eh l) new.
Proof.
  assert (exists new, list_at eh l = list_at eh l ++ new /\
            NoDup new /\ Forall (fun c => c ∈ [callback] /\ c ∉ list_at eh l) new)
    as Hsame.
  { exists []. rewrite app_nil_r. repeat split; constructor. }
  unfold link. destruct (negb (is_callable callback)); simpl.
  { unfold print_if_verbose. by destruct (verbose cfg). }
  destruct (negb (is_event_registered event_name eh)); [done|].
  destruct (dict_get event_name (events eh)) as [l'|]; [|done].
  destruct (negb (py_in callback (list_at eh l'))) eqn:Hin; simpl.
  2: { unfold print_named. destruct (verbose cfg); [|done].
       by destruct (getattr_name callback). }
  apply negb_true_iff, py_in_false in Hin.
  unfold list_at at 1. simpl. destruct (decide (l' = l)) as [->|Hne].
  - destruct (store eh !! l) as [cbs|] eqn:Hcbs.
    + rewrite list_lookup_insert_eq by (by eapply lookup_lt_Some). simpl.
      exists [callback]. split; [done|]. split; [apply NoDup_singleton|].
      constructor; [|constructor]. split; [apply list_elem_of_here | done].
    + rewrite list_insert_ge by (by apply lookup_ge_None_1). exact Hsame.
  - by rewrite list_lookup_insert_ne.
Qed.

Lemma Demo_call_only_links cfg l args kwargs callback :
  (forall name, callback <> PyFunction 5 name) ->
  only_links (Demo.call cfg) [Demo.recordB] l args kwargs callback.
Proof.
  intros Honce [eh w].
  assert (exists new, list_at eh l = list_at eh l ++ new /\
            NoDup new /\ Forall (fun c => c ∈ [Demo.recordB] /\ c ∉ list_at eh l) new)
    as Hsame.
  { exists []. rewrite app_nil_r. repeat split; constructor. }
  destruct callback as [[|[|[|[|[|[|[|[|id]]]]]]]] name|id name|self func name|cls id name|cls id];
    simpl; try done.
  - by destruct (Honce name).
  - pose proof (link_only_links cfg Demo.recordB "ping" eh l) as Hlink.
    by destruct (link cfg Demo.recordB "ping" eh).
Qed.

Lemma Demo_call_raises_only_Exception cfg args kwargs callback :
  (forall name, callback <> PyFunction 4 name) ->
  raises_only_Exception (Demo.call cfg) args kwargs callback.
Proof.
  intros Hexit [eh w] e.
  destruct callback as [[|[|[|[|[|[|[|[|id]]]]]]]] name|id name|self func name|cls id name|cls id];
    simpl; try done; try (by intros [= <-]).
  - by destruct (Hexit name).
  - pose proof (link_raises_Exception cfg Demo.recordB "ping" eh) as Hlink.
    destruct (link cfg Demo.recordB "ping" eh) as [[v|e'] eh']; simpl in *; [done|].
    intros [= <-]. by apply Hlink.
Qed.

Lemma Demo_call_keeps_first cfg first l args kwargs callback :
  (forall name, callback <> PyFunction 5 name) ->
  keeps_first (Demo.call cfg) first l args kwargs callback.
Proof.
  intros Honce. eapply only_links_keeps_first. by apply Demo_call_only_links.
Qed.

(** [recordA] then [recordB] linked to ["ping"], then [fire("ping", x)]:
    the log is [recordA:x], [recordB:x]. *)
Example fire_ping_records_in_order :
  fire (Demo.call Demo.strict) Demo.strict 2 "ping" [Demo.x] []
    (Demo.handler Demo.strict [Demo.recordA; Demo.recordB], [])
  = Some (Returned true,
          (Demo.handler Demo.strict [Demo.recordA; Demo.recordB],
           [("recordA", [Demo.x]); ("recordB", [Demo.x])]),
          [mkInvocation Demo.recordA [Demo.x] [] (Returned Demo.none);
           mkInvocation Demo.recordB [Demo.x] [] (Returned Demo.none)]).
Proof. reflexivity. Qed.

(** [recruit] links [recordB] to ["ping"] while [fire] runs: [recordB] is
    invoked in that same [fire], after the callbacks linked before it. *)
Example fire_ping_recruits :
  fire (Demo.call Demo.strict) Demo.strict 3 "ping" [Demo.x] []
    (Demo.handler Demo.strict [Demo.recruit; Demo.recordA], [])
  = Some (Returned true,
          (Demo.handler Demo.strict [Demo.recruit; Demo.recordA; Demo.recordB],
           [("recruit", [Demo.x]); ("recordA", [Demo.x]); ("recordB", [Demo.x])]),
          [mkInvocation Demo.recruit [Demo.x] [] (Returned Demo.none);
           mkInvocation Demo.recordA [Demo.x] [] (Returned Demo.none);
           mkInvocation Demo.recordB [Demo.x] [] (Returned Demo.none)]).
Proof. reflexivity. Qed.

(** In tolerant mode [failing] raises and the callbacks after it are
    invoked all the same; [fire] returns [False]. *)
Example fire_ping_tolerant :
  fire (Demo.call Demo.tolerant) Demo.tolerant 4 "ping" [Demo.x] []
    (Demo.handler Demo.tolerant [Demo.recruit; Demo.failing; Demo.recordA], [])
  = Some (Returned false,
          (Demo.handler Demo.tolerant [Demo.recruit; Demo.failing; Demo.recordA; Demo.recordB],
           [("recruit", [Demo.x]); ("failing", [Demo.x]); ("recordA", [Demo.x]);
            ("recordB", [Demo.x])]),
          [mkInvocation Demo.recruit [Demo.x] [] (Returned Demo.none);
           mkInvocation Demo.failing [Demo.x] []
             (Raised (OtherException "ValueError" "boom"));
           mkInvocation Demo.recordA [Demo.x] [] (Returned Demo.none);
           mkInvocation Demo.recordB [Demo.x] [] (Returned Demo.none)]).
Proof. reflexivity. Qed.

Lemma register_event_idempotent_witness :
  (fst (register_event Demo.strict "ping" (Demo.handler Demo.strict [Demo.recordA])) = false /\
   callbacks_of (snd (register_event Demo.strict "ping"
                        (Demo.handler Demo.strict [Demo.recordA]))) "ping"
   = Some [Demo.recordA]) /\
  (fst (register_event Demo.strict "pang" (Demo.handler Demo.strict [Demo.recordA])) = true /\
   callbacks_of (snd (register_event Demo.strict "pang"
                        (Demo.handler Demo.strict [Demo.recordA]))) "pang"
   = Some []).
Proof.
  split.
  - destruct (register_event_idempotent Demo.strict "ping"
                (Demo.handler Demo.strict [Demo.recordA])) as [Hold _].
    destruct (Hold eq_refl) as (Hr & _ & _ & _ & Hcbs & _).
    split; [exact Hr | exact Hcbs].
  - destruct (register_event_idempotent Demo.strict "pang"
                (Demo.handler Demo.strict [Demo.recordA])) as [_ Hnew].
    destruct (Hnew eq_refl) as (Hr & Hcbs & _).
    split; [exact Hr | exact Hcbs].
Defined.





Lemma loop_fires_appended_requests_witness :
  loop Demo.call_plain Demo.tolerant 2
    (append_all [("ping", [Demo.x], []); ("pong", [], [])]
       (Demo.handler Demo.tolerant [Demo.recordA; Demo.failing]), [])
  = drained <$>
    fire_sequence Demo.call_plain Demo.tolerant 2
      [("ping", [Demo.x], []); ("pong", [], [])]
      (Demo.handler Demo.tolerant [Demo.recordA; Demo.failing], []).
Proof.
  apply (loop_fires_appended_requests Demo.call_plain Demo.tolerant 2
           [("ping", [Demo.x], []); ("pong", [], [])]
           (Demo.handler Demo.tolerant [Demo.recordA; Demo.failing]) []).
  - exact Demo_call_plain_ignores_queue.
  - simpl. lia.
Defined.

(** What that run of [loop] is. *)
Example loop_ping_pong :
  loop Demo.call_plain Demo.tolerant 2
    (append_all [("ping", [Demo.x], []); ("pong", [], [])]
       (Demo.handler Demo.tolerant [Demo.recordA; Demo.failing]), [])
  = Some (Returned false,
          (Demo.handler Demo.tolerant [Demo.recordA; Demo.failing],
           [("recordA", [Demo.x]); ("failing", [Demo.x]); ("recordB", [])]),
          [mkInvocation Demo.recordA [Demo.x] [] (Returned Demo.none);
           mkInvocation Demo.failing [Demo.x] []
             (Raised (OtherException "ValueError" "boom"));
           mkInvocation Demo.recordB [] [] (Returned Demo.none)]).
Proof. reflexivity. Qed.




(** C6 does not hold as stated: [chain], linked to ["ping"], appends a
    request for ["pong"] when it runs.  [loop] fires that request too and
    [recordB] writes to the log; a caller that fires the appended request
    itself never invokes [recordB]. *)
Lemma loop_fires_more_than_appended :
  (exists r eh tr,
     loop (Demo.call Demo.strict) Demo.strict 3
       (append_all [("ping", [Demo.x], [])] (Demo.handler Demo.strict [Demo.chain]), [])
     = Some (r, (eh, [("chain", [Demo.x]); ("recordB", [Demo.x])]), tr)) /\
  (exists r eh tr rest,
     fire_sequence (Demo.call Demo.strict) Demo.strict 3 [("ping", [Demo.x], [])]
       (Demo.handler Demo.strict [Demo.chain], [])
     = Some (r, (eh, [("chain", [Demo.x])]), tr, rest)) /\
  loop (Demo.call Demo.strict) Demo.strict 3
    (append_all [("ping", [Demo.x], [])] (Demo.handler Demo.strict [Demo.chain]), [])
  <> drained <$>
     fire_sequence (Demo.call Demo.strict) Demo.strict 3 [("ping", [Demo.x], [])]
       (Demo.handler Demo.strict [Demo.chain], []).
Proof.
  split; [|split].
  - eexists _, _, _. reflexivity.
  - eexists _, _, _, _. reflexivity.
  - intros H. vm_compute in H. discriminate H.
Qed.

(** * Further properties *)

(** ** Dicts *)

Section MoreDictFacts.
Context {V : Type}.
Implicit Types (d : list (string * V)) (k : string) (v : V).

Lemma dict_get_None k d : dict_get k d = None <-> k ∉ dict_keys d.
Proof.
  unfold dict_keys. induction d as [|[k' v'] d IH]; simpl.
  - split; [intros _; apply not_elem_of_nil | done].
  - rewrite not_elem_of_cons. destruct (decide (k = k')) as [->|Hne].
    + split; [done | by intros [? _]].
    + rewrite IH. tauto.
Qed.

Lemma dict_get_Some k v d : dict_get k d = Some v -> (k, v) ∈ d.
Proof.
  induction d as [|[k' v'] d IH]; simpl; [done|].
  destruct (decide (k = k')) as [->|Hne].
  - intros [= ->]. apply list_elem_of_here.
  - intros Hd. apply list_elem_of_further. by apply IH.
Qed.

Lemma dict_get_elem_of k v d :
  NoDup (dict_keys d) -> (k, v) ∈ d -> dict_get k d = Some v.
Proof.
  unfold dict_keys. induction d as [|[k' v'] d IH]; simpl.
  - by intros _ ?%elem_of_nil.
  - intros [Hk' Hd]%NoDup_cons [[= -> ->]|Hin]%elem_of_cons.
    + by rewrite decide_True.
    + rewrite decide_False; [by apply IH|].
      intros ->. apply Hk'. by apply (list_elem_of_fmap_2 fst) in Hin.
Qed.

Lemma dict_contains_keys k d : dict_contains k d = true <-> k ∈ dict_keys d.
Proof.
  rewrite dict_contains_true, <- not_eq_None_Some, dict_get_None.
  destruct (decide (k ∈ dict_keys d)); tauto.
Qed.

Lemma dict_set_new k v d : dict_get k d = None -> dict_set k v d = d ++ [(k, v)].
Proof.
  induction d as [|[k' v'] d IH]; simpl; [done|].
  destruct (decide (k = k')); [done|]. intros Hd. by rewrite IH.
Qed.

Lemma dict_get_del_ne k k' d : k' <> k -> dict_get k' (dict_del k d) = dict_get k' d.
Proof.
  intros Hne. induction d as [|[k0 v0] d IH]; simpl; [done|].
  destruct (decide (k = k0)) as [->|Hk]; simpl.
  - by rewrite decide_False.
  - by rewrite IH.
Qed.

Lemma dict_get_del_eq k d : NoDup (dict_keys d) -> dict_get k (dict_del k d) = None.
Proof.
  unfold dict_keys. induction d as [|[k' v'] d IH]; simpl; [done|].
  intros [Hk' Hd]%NoDup_cons. destruct (decide (k = k')) as [->|Hne]; simpl.
  - by apply dict_get_None.
  - rewrite decide_False by done. by apply IH.
Qed.

Lemma dict_del_new k v d : dict_get k d = None -> dict_del k (d ++ [(k, v)]) = d.
Proof.
  induction d as [|[k' v'] d IH]; simpl.
  - by rewrite decide_True.
  - destruct (decide (k = k')); [done|]. intros Hd. by rewrite IH.
Qed.

Lemma dict_del_absent k d : dict_get k d = None -> dict_del k d = d.
Proof.
  induction d as [|[k' v'] d IH]; simpl; [done|].
  destruct (decide (k = k')); [done|]. intros Hd. by rewrite IH.
Qed.

Lemma dict_del_sublist k d : dict_del k d `sublist_of` d.
Proof.
  induction d as [|[k' v'] d IH]; simpl; [done|].
  destruct (decide (k = k')); [by apply sublist_cons | by apply sublist_skip].
Qed.

Lemma dict_del_length k v d :
  dict_get k d = Some v -> length d = S (length (dict_del k d)).
Proof.
  induction d as [|[k' v'] d IH]; simpl; [done|].
  destruct (decide (k = k')); [done|]. intros Hd. simpl. by rewrite <- IH.
Qed.
End MoreDictFacts.

(** In a dict whose references are distinct, one reference belongs to one
    key. *)
Lemma dict_get_inj (d : list (string * loc)) k k' l :
  NoDup (map snd d) -> dict_get k d = Some l -> dict_get k' d = Some l -> k = k'.
Proof.
  induction d as [|[k0 l0] d IH]; simpl; [done|].
  intros [Hl0 Hd]%NoDup_cons.
  destruct (decide (k = k0)) as [->|Hk], (decide (k' = k0)) as [->|Hk']; try done.
  - intros [= ->] Hin%dict_get_Some. destruct Hl0.
    by apply (list_elem_of_fmap_2 snd) in Hin.
  - intros Hin%dict_get_Some [= ->]. destruct Hl0.
    by apply (list_elem_of_fmap_2 snd) in Hin.
  - by apply IH.
Qed.

(** ** Python lists *)

Lemma list_remove_length x l : x ∈ l -> length l = S (length (list_remove x l)).
Proof.
  induction l as [|y l IH]; simpl; [by intros ?%elem_of_nil|].
  destruct (decide (x = y)) as [->|Hne]; [done|].
  intros [->|Hin]%elem_of_cons; [done|]. simpl. by rewrite <- IH.
Qed.

Lemma list_remove_sublist x l : list_remove x l `sublist_of` l.
Proof.
  induction l as [|y l IH]; simpl; [done|].
  destruct (decide (x = y)); [by apply sublist_cons | by apply sublist_skip].
Qed.

Lemma list_remove_other x z l : z <> x -> z ∈ list_remove x l <-> z ∈ l.
Proof.
  intros Hne. induction l as [|y l IH]; simpl; [done|].
  destruct (decide (x = y)) as [->|Hxy].
  - rewrite elem_of_cons. split; [by right | by intros [?|?]].
  - by rewrite !elem_of_cons, IH.
Qed.

Lemma list_remove_NoDup_gone x l : NoDup l -> x ∉ list_remove x l.
Proof.
  induction l as [|y l IH]; simpl; [intros _; apply not_elem_of_nil|].
  intros [Hy Hl]%NoDup_cons. destruct (decide (x = y)) as [->|Hne]; [done|].
  apply not_elem_of_cons. split; [done | by apply IH].
Qed.

Lemma list_remove_last x l : x ∉ l -> list_remove x (l ++ [x]) = l.
Proof.
  induction l as [|y l IH]; simpl.
  - by rewrite decide_True.
  - intros [Hne Hl]%not_elem_of_cons. rewrite decide_False by done. by rewrite IH.
Qed.

Lemma list_at_lookup eh l cbs : store eh !! l = Some cbs -> list_at eh l = cbs.
Proof. intros Hl. unfold list_at. by rewrite Hl. Qed.

Lemma set_store_id eh : set_store (store eh) eh = eh.
Proof. by destruct eh. Qed.

(** ** Linking and unlinking *)

Section Linking.
Variable cfg : Config.

(** What [link] and [unlink] write: at most the list object of the event
    they are given. *)
Lemma link_writes callback event_name eh :
  events (snd (link cfg callback event_name eh)) = events eh /\
  event_queue (snd (link cfg callback event_name eh)) = event_queue eh /\
  (store (snd (link cfg callback event_name eh)) = store eh \/
   exists l cbs, dict_get event_name (events eh) = Some l /\
     store (snd (link cfg callback event_name eh)) = <[l := cbs]> (store eh)).
Proof.
  unfold link. destruct (negb (is_callable callback)); simpl.
  { unfold print_if_verbose. destruct (verbose cfg); simpl; auto. }
  destruct (negb (is_event_registered event_name eh)); simpl; [auto|].
  destruct (dict_get event_name (events eh)) as [l|]; simpl; [|auto].
  destruct (negb (py_in callback (list_at eh l))); simpl; [eauto 10|].
  unfold print_named. destruct (verbose cfg); simpl; [|auto].
  destruct (getattr_name callback); simpl; auto.
Qed.

Lemma unlink_writes callback event_name eh :
  events (snd (unlink cfg callback event_name eh)) = events eh /\
  event_queue (snd (unlink cfg callback event_name eh)) = event_queue eh /\
  (store (snd (unlink cfg callback event_name eh)) = store eh \/
   exists l cbs, dict_get event_name (events eh) = Some l /\
     store (snd (unlink cfg callback event_name eh)) = <[l := cbs]> (store eh)).
Proof.
  unfold unlink. destruct (negb (is_event_registered event_name eh)); simpl; [auto|].
  destruct (dict_get event_name (events eh)) as [l|]; simpl; [|auto].
  destruct (py_in callback (list_at eh l)); simpl; [eauto 10|].
  unfold print_named. destruct (verbose cfg); simpl; [|auto].
  destruct (getattr_name callback); simpl; auto.
Qed.

Lemma callbacks_of_other_list eh eh' event_name other l cbs :
  well_formed eh ->
  events eh' = events eh ->
  dict_get event_name (events eh) = Some l ->
  store eh' = <[l := cbs]> (store eh) ->
  other <> event_name ->
  callbacks_of eh' other = callbacks_of eh other.
Proof.
  intros (_ & Hlocs & _) Hev Hl Hst Hne. unfold callbacks_of. rewrite Hev.
  destruct (dict_get other (events eh)) as [l'|] eqn:Hl'; [|done]. simpl.
  unfold list_at. rewrite Hst, list_lookup_insert_ne; [done|].
  intros ->. apply Hne. by eapply dict_get_inj.
Qed.

(** X1. A callable cannot be linked to an event that is not registered:
    [link] raises [EventNotAllowedError], which carries the registered
    names, and changes nothing.  Once [register_event] has run for that
    name, the same [link] returns [True] and the callback is the only one
    of the event. *)
Theorem link_needs_registration callback event_name eh :
  is_callable callback = true ->
  is_event_registered event_name eh = false ->
  link cfg callback event_name eh
  = (Raised (EventNotAllowedError event_name (event_list eh)), eh) /\
  fst (link cfg callback event_name (snd (register_event cfg event_name eh)))
  = Returned true /\
  callbacks_of (snd (link cfg callback event_name
                       (snd (register_event cfg event_name eh)))) event_name
  = Some [callback].
Proof.
  intros Hcallable Hreg. split.
  { unfold link. by rewrite Hcallable, Hreg. }
  unfold register_event. rewrite Hreg. simpl.
  apply (link_new_appends cfg callback event_name _ (length (store eh)) []); simpl.
  - apply dict_get_set_eq.
  - apply list_at_alloc_new.
  - done.
  - apply not_elem_of_nil.
Qed.

(** X2. Linking a callable that the event does not hold yet returns
    [True] and puts it at the tail of the event's list: the callbacks
    already there keep their places, [is_callback_in_event] now answers
    [True] for it, and nothing is printed or queued. *)
Theorem link_new_callback callback event_name eh l cbs :
  dict_get event_name (events eh) = Some l ->
  store eh !! l = Some cbs ->
  is_callable callback = true ->
  callback ∉ cbs ->
  fst (link cfg callback event_name eh) = Returned true /\
  callbacks_of (snd (link cfg callback event_name eh)) event_name
  = Some (cbs ++ [callback]) /\
  is_callback_in_event event_name callback (snd (link cfg callback event_name eh))
  = Returned true /\
  events (snd (link cfg callback event_name eh)) = events eh /\
  event_queue (snd (link cfg callback event_name eh)) = event_queue eh /\
  stream_output (snd (link cfg callback event_name eh)) = stream_output eh.
Proof.
  intros Hl Hcbs Hcallable Hnew.
  destruct (link_new_appends cfg callback event_name eh l cbs) as [Hr Hafter]; try done.
  destruct (link_writes callback event_name eh) as (Hev & Hq & _).
  repeat split; try done.
  - unfold callbacks_of in Hafter. unfold is_callback_in_event.
    destruct (dict_get event_name (events (snd (link cfg callback event_name eh))))
      as [l'|]; [|done].
    injection Hafter as ->. f_equal. apply py_in_true.
    apply elem_of_app. right. apply list_elem_of_here.
  - unfold link, is_event_registered, dict_contains.
    rewrite Hcallable, Hl. simpl. rewrite (list_at_lookup eh l cbs Hcbs).
    apply py_in_false in Hnew. by rewrite Hnew.
Qed.

(** X3. [link] returns [True] exactly when the value is callable, the
    event is registered and the event does not hold the callback yet. *)
Theorem link_returns_True_iff callback event_name eh :
  fst (link cfg callback event_name eh) = Returned true <->
  is_callable callback = true /\
  is_event_registered event_name eh = true /\
  is_callback_in_event event_name callback eh = Returned false.
Proof.
  unfold link, is_callback_in_event, is_event_registered, dict_contains.
  destruct (is_callable callback) eqn:Hcallable; simpl.
  2: { split; [done | by intros [? _]]. }
  destruct (dict_get event_name (events eh)) as [l|] eqn:Hl; simpl.
  2: { split; [done | by intros (_ & ? & _)]. }
  destruct (py_in callback (list_at eh l)); simpl.
  - split; [|by intros (_ & _ & ?)].
    unfold print_named. destruct (verbose cfg); [|done].
    by destruct (getattr_name callback).
  - done.
Qed.

(** X4. Unlinking a callback that the event holds returns [True] and
    takes it off the event's list: the list is one shorter, the other
    callbacks stay, in the order they had, and when the list held the
    callback once (as it does in a handler filled by [link]),
    [is_callback_in_event] now answers [False] for it. *)
Theorem unlink_linked_callback callback event_name eh l cbs :
  dict_get event_name (events eh) = Some l ->
  store eh !! l = Some cbs ->
  callback ∈ cbs ->
  fst (unlink cfg callback event_name eh) = Returned true /\
  callbacks_of (snd (unlink cfg callback event_name eh)) event_name
  = Some (list_remove callback cbs) /\
  length cbs = S (length (list_remove callback cbs)) /\
  list_remove callback cbs `sublist_of` cbs /\
  (forall other, other <> callback -> other ∈ list_remove callback cbs <-> other ∈ cbs) /\
  (NoDup cbs ->
   is_callback_in_event event_name callback (snd (unlink cfg callback event_name eh))
   = Returned false).
Proof.
  intros Hl Hcbs Hin.
  assert (unlink cfg callback event_name eh
          = (Returned true, set_store (<[l := list_remove callback cbs]> (store eh)) eh))
    as Hunlink.
  { unfold unlink, is_event_registered, dict_contains. rewrite Hl. simpl.
    rewrite (list_at_lookup eh l cbs Hcbs).
    apply py_in_true in Hin. by rewrite Hin. }
  assert (callbacks_of (snd (unlink cfg callback event_name eh)) event_name
          = Some (list_remove callback cbs)) as Hafter.
  { rewrite Hunlink. unfold callbacks_of, list_at. simpl. rewrite Hl. simpl.
    rewrite list_lookup_insert_eq; [done|]. by eapply lookup_lt_Some. }
  rewrite Hunlink at 1. simpl. repeat split.
  - done.
  - by apply list_remove_length.
  - apply list_remove_sublist.
  - by apply list_remove_other.
  - by apply list_remove_other.
  - intros Hnodup. unfold callbacks_of in Hafter. unfold is_callback_in_event.
    destruct (dict_get event_name (events (snd (unlink cfg callback event_name eh))))
      as [l'|]; [|done].
    injection Hafter as ->. f_equal. apply py_in_false.
    by apply list_remove_NoDup_gone.
Qed.


(** X6. [unlink] undoes [link]: after a callable that the event did not
    hold is linked and unlinked again, the handler is the one before. *)
Theorem link_unlink_round_trip callback event_name eh l cbs :
  dict_get event_name (events eh) = Some l ->
  store eh !! l = Some cbs ->
  is_callable callback = true ->
  callback ∉ cbs ->
  unlink cfg callback event_name (snd (link cfg callback event_name eh))
  = (Returned true, eh).
Proof.
  intros Hl Hcbs Hcallable Hnew.
  assert (link cfg callback event_name eh
          = (Returned true, set_store (<[l := cbs ++ [callback]]> (store eh)) eh))
    as ->.
  { unfold link, is_event_registered, dict_contains. rewrite Hcallable, Hl. simpl.
    rewrite (list_at_lookup eh l cbs Hcbs).
    apply py_in_false in Hnew. by rewrite Hnew. }
  unfold unlink, is_event_registered, dict_contains. simpl. rewrite Hl. simpl.
  unfold list_at at 1. simpl.
  rewrite list_lookup_insert_eq by (by eapply lookup_lt_Some). simpl.
  rewrite (proj2 (py_in_true callback (cbs ++ [callback])))
    by (apply elem_of_app; right; apply list_elem_of_here).
  f_equal. unfold list_at. simpl.
  rewrite list_lookup_insert_eq by (by eapply lookup_lt_Some). simpl.
  rewrite list_remove_last, list_insert_insert_eq, list_insert_id by done.
  by destruct eh.
Qed.

(** X7. In a handler where every event has a list object of its own,
    [link] and [unlink] on one event leave the callbacks of every other
    event as they are. *)
Theorem link_unlink_other_events callback event_name other eh :
  well_formed eh ->
  other <> event_name ->
  callbacks_of (snd (link cfg callback event_name eh)) other = callbacks_of eh other /\
  callbacks_of (snd (unlink cfg callback event_name eh)) other = callbacks_of eh other.
Proof.
  intros Hwf Hne. split.
  - destruct (link_writes callback event_name eh) as (Hev & _ & [Hst|(l & cbs & Hl & Hst)]).
    + unfold callbacks_of, list_at. by rewrite Hev, Hst.
    + by eapply callbacks_of_other_list.
  - destruct (unlink_writes callback event_name eh) as (Hev & _ & [Hst|(l & cbs & Hl & Hst)]).
    + unfold callbacks_of, list_at. by rewrite Hev, Hst.
    + by eapply callbacks_of_other_list.
Qed.
End Linking.

(** ** Registering and unregistering *)

Section Registering.
Variable cfg : Config.

Lemma print_if_verbose_queue d eh :
  event_queue (print_if_verbose cfg d eh) = event_queue eh.
Proof. unfold print_if_verbose. by destruct (verbose cfg). Qed.

(** X8. The names of [event_list] are the names for which
    [is_event_registered] answers [True], and [is_callback_in_event]
    returns (instead of raising) for exactly these names. *)
Theorem is_event_registered_event_list event_name eh :
  (is_event_registered event_name eh = true <-> event_name ∈ event_list eh) /\
  (forall callback,
     is_event_registered event_name eh = true <->
     exists b, is_callback_in_event event_name callback eh = Returned b).
Proof.
  split; [apply dict_contains_keys|].
  intros callback. unfold is_event_registered, is_callback_in_event.
  rewrite dict_contains_true.
  destruct (dict_get event_name (events eh)) as [l|].
  - split; eauto.
  - split; [by intros [? ?] | by intros [? ?]].
Qed.

(** X9. [unregister_event] on a registered name returns [True] and takes
    the name out of the dict: the name is no longer registered, there is
    one event less, the other events keep their callbacks and no list
    object is touched.  On a name that is not registered it returns
    [False] and leaves the dict and the list objects as they are. *)
Theorem unregister_event_removes event_name eh :
  NoDup (event_list eh) ->
  let eh' := snd (unregister_event cfg event_name eh) in
  (is_event_registered event_name eh = true ->
     fst (unregister_event cfg event_name eh) = true /\
     is_event_registered event_name eh' = false /\
     count_events eh = S (count_events eh') /\
     store eh' = store eh /\
     forall other, other <> event_name ->
       callbacks_of eh' other = callbacks_of eh other) /\
  (is_event_registered event_name eh = false ->
     fst (unregister_event cfg event_name eh) = false /\
     events eh' = events eh /\ store eh' = store eh).
Proof.
  intros Hkeys. cbv zeta. unfold unregister_event, is_event_registered.
  split; intros Hreg; rewrite Hreg; simpl.
  - apply dict_contains_true in Hreg as [l Hl]. repeat split.
    + apply dict_contains_false. by apply dict_get_del_eq.
    + unfold count_events, event_list, dict_keys. simpl.
      rewrite !length_map. by eapply dict_del_length.
    + intros other Hne. unfold callbacks_of. simpl. by rewrite dict_get_del_ne.
  - by destruct (print_if_verbose_store cfg (MsgOmitUnregister event_name) eh).
Qed.

(** X10. [unregister_event] undoes [register_event]: after a new name is
    registered and unregistered again, the dict is the one before and the
    [events] property shows the same events with the same callbacks. *)
Theorem register_unregister_round_trip event_name eh :
  is_event_registered event_name eh = false ->
  fst (unregister_event cfg event_name (snd (register_event cfg event_name eh))) = true /\
  events (snd (unregister_event cfg event_name (snd (register_event cfg event_name eh))))
  = events eh /\
  events_view (snd (unregister_event cfg event_name
                      (snd (register_event cfg event_name eh))))
  = events_view eh.
Proof.
  intros Hreg. unfold register_event. rewrite Hreg. simpl.
  apply dict_contains_false in Hreg.
  unfold unregister_event. simpl.
  rewrite (proj2 (dict_contains_true event_name _))
    by (rewrite dict_get_set_eq; eauto).
  simpl. rewrite dict_set_new, dict_del_new by done.
  repeat split. unfold events_view. simpl.
  apply map_ext. intros [k l]. f_equal. apply list_at_alloc.
Qed.

Lemma register_event_new_callbacks event_name eh :
  is_event_registered event_name eh = false ->
  callbacks_of (snd (register_event cfg event_name eh)) event_name = Some [].
Proof.
  intros Hreg. unfold register_event. rewrite Hreg. simpl.
  unfold callbacks_of, list_at. simpl.
  rewrite dict_get_set_eq. simpl. by rewrite list_at_alloc_new.
Qed.

Lemma unregister_event_gone event_name eh :
  NoDup (event_list eh) ->
  is_event_registered event_name (snd (unregister_event cfg event_name eh)) = false.
Proof.
  intros Hkeys. unfold unregister_event, is_event_registered.
  destruct (dict_contains event_name (events eh)) eqn:Hreg; simpl.
  - apply dict_contains_false. by apply dict_get_del_eq.
  - by destruct (print_if_verbose_store cfg (MsgOmitUnregister event_name) eh) as [-> _].
Qed.

(** X11. Registering a name again after it was unregistered gives it an
    empty list: the callbacks it had are not linked any more.  The same
    holds after [clear_events]. *)
Theorem unregister_register_drops_callbacks event_name eh :
  NoDup (event_list eh) ->
  callbacks_of (snd (register_event cfg event_name
                       (snd (unregister_event cfg event_name eh)))) event_name
  = Some [] /\
  callbacks_of (snd (register_event cfg event_name (snd (clear_events eh)))) event_name
  = Some [].
Proof.
  intros Hkeys. split.
  - by apply register_event_new_callbacks, unregister_event_gone.
  - by apply register_event_new_callbacks.
Qed.
End Registering.

(** ** Every event has a list object of its own *)

Lemma well_formed_same eh eh' :
  events eh' = events eh -> length (store eh') = length (store eh) ->
  well_formed eh -> well_formed eh'.
Proof. unfold well_formed. by intros -> ->. Qed.

Section Methods_well_formed.
Variable cfg : Config.

Lemma event_list_print_if_verbose d eh :
  event_list (print_if_verbose cfg d eh) = event_list eh.
Proof. unfold event_list. by rewrite (proj1 (print_if_verbose_store cfg d eh)). Qed.

Lemma register_event_well_formed event_name eh :
  well_formed eh -> well_formed (snd (register_event cfg event_name eh)).
Proof.
  intros Hwf. unfold register_event.
  destruct (is_event_registered event_name eh) eqn:Hreg; simpl.
  { destruct (print_if_verbose_store cfg (MsgOmitRegistration event_name) eh) as [Hev Hst].
    apply (well_formed_same eh); [done | by rewrite Hst | done]. }
  apply dict_contains_false in Hreg. destruct Hwf as (Hkeys & Hlocs & Hin).
  unfold well_formed, dict_keys. simpl.
  rewrite dict_set_new, !map_app, length_app by done. simpl. repeat split.
  - apply NoDup_app. repeat split; [done| |apply NoDup_singleton].
    intros k Hk ->%list_elem_of_singleton. by apply dict_get_None in Hreg.
  - apply NoDup_app. repeat split; [done| |apply NoDup_singleton].
    intros l Hl ->%list_elem_of_singleton.
    apply list_elem_of_fmap in Hl as ([k l] & Heq & Hentry). simpl in Heq.
    rewrite Forall_forall in Hin. specialize (Hin _ Hentry). simpl in Hin. lia.
  - apply Forall_app. split.
    + eapply Forall_impl; [done|]. simpl. lia.
    + apply Forall_singleton. simpl. lia.
Qed.

Lemma unregister_event_well_formed event_name eh :
  well_formed eh -> well_formed (snd (unregister_event cfg event_name eh)).
Proof.
  intros Hwf. unfold unregister_event.
  destruct (dict_contains event_name (events eh)); simpl.
  2: { destruct (print_if_verbose_store cfg (MsgOmitUnregister event_name) eh) as [Hev Hst].
       apply (well_formed_same eh); [done | by rewrite Hst | done]. }
  destruct Hwf as (Hkeys & Hlocs & Hin).
  pose proof (dict_del_sublist event_name (events eh)) as Hsub.
  unfold well_formed, dict_keys. simpl. repeat split.
  - apply (sublist_NoDup _ (map fst (events eh))); [exact Hkeys|].
    by apply (fmap_sublist fst).
  - apply (sublist_NoDup _ (map snd (events eh))); [exact Hlocs|].
    by apply (fmap_sublist snd).
  - rewrite Forall_forall in *. intros entry Hentry.
    apply Hin. by eapply elem_of_sublist.
Qed.

Lemma clear_events_well_formed eh : well_formed (snd (clear_events eh)).
Proof.
  unfold well_formed, dict_keys. simpl. repeat split; constructor.
Qed.

Lemma link_well_formed callback event_name eh :
  well_formed eh -> well_formed (snd (link cfg callback event_name eh)).
Proof.
  destruct (link_writes cfg callback event_name eh) as (Hev & _ & [Hst|(l & cbs & _ & Hst)]);
    apply well_formed_same; try done; rewrite Hst; [done | apply length_insert].
Qed.

Lemma unlink_well_formed callback event_name eh :
  well_formed eh -> well_formed (snd (unlink cfg callback event_name eh)).
Proof.
  destruct (unlink_writes cfg callback event_name eh) as (Hev & _ & [Hst|(l & cbs & _ & Hst)]);
    apply well_formed_same; try done; rewrite Hst; [done | apply length_insert].
Qed.

Lemma register_all_well_formed event_names : forall eh,
  well_formed eh ->
  well_formed (fold_left (fun eh event => snd (register_event cfg event eh)) event_names eh).
Proof.
  induction event_names as [|event rest IH]; intros eh Hwf; simpl; [done|].
  by apply IH, register_event_well_formed.
Qed.

Lemma register_all_names event_names : forall eh name,
  name ∈ event_list (fold_left (fun eh event => snd (register_event cfg event eh))
                       event_names eh)
  <-> name ∈ event_list eh \/ name ∈ event_names.
Proof.
  induction event_names as [|event rest IH]; intros eh name; simpl.
  - split; [auto | by intros [?|?%elem_of_nil]].
  - rewrite IH, elem_of_cons. unfold register_event.
    destruct (is_event_registered event eh) eqn:Hreg; simpl.
    + apply dict_contains_keys in Hreg. unfold event_list.
      rewrite (proj1 (print_if_verbose_store cfg _ eh)).
      split; [tauto|]. intros [?|[->|?]]; auto.
    + apply dict_contains_false in Hreg. unfold event_list. simpl.
      rewrite dict_keys_set_new, elem_of_app, list_elem_of_singleton by done. tauto.
Qed.

Lemma register_all_distinct event_names : forall eh,
  NoDup event_names ->
  (forall name, name ∈ event_names -> name ∉ event_list eh) ->
  event_list (fold_left (fun eh event => snd (register_event cfg event eh)) event_names eh)
  = event_list eh ++ event_names.
Proof.
  induction event_names as [|event rest IH]; intros eh Hnodup Hnew; simpl.
  - by rewrite app_nil_r.
  - apply NoDup_cons in Hnodup as [Hevent Hrest].
    assert (dict_get event (events eh) = None) as Hreg.
    { apply dict_get_None. apply Hnew, list_elem_of_here. }
    assert (event_list (snd (register_event cfg event eh)) = event_list eh ++ [event])
      as Hkeys.
    { unfold register_event, is_event_registered.
      rewrite (proj2 (dict_contains_false event (events eh)) Hreg). simpl.
      unfold event_list. simpl. by apply dict_keys_set_new. }
    rewrite IH, Hkeys, <- app_assoc; [done..|].
    intros name Hname. rewrite Hkeys, elem_of_app, list_elem_of_singleton.
    intros [Hin | ->]; [|done].
    by apply (Hnew name); [apply list_elem_of_further|].
Qed.

Lemma register_all_empty_lists event_names : forall eh,
  Forall (fun cbs => cbs = []) (store eh) ->
  Forall (fun cbs => cbs = [])
    (store (fold_left (fun eh event => snd (register_event cfg event eh)) event_names eh)) /\
  event_queue (fold_left (fun eh event => snd (register_event cfg event eh)) event_names eh)
  = event_queue eh.
Proof.
  induction event_names as [|event rest IH]; intros eh Hempty; simpl; [done|].
  destruct (IH (snd (register_event cfg event eh))) as [Hst Hq].
  - unfold register_event. destruct (is_event_registered event eh); simpl.
    + by rewrite (proj2 (print_if_verbose_store cfg _ eh)).
    + apply Forall_app. split; [done | by apply Forall_singleton].
  - split; [done|]. rewrite Hq. unfold register_event.
    destruct (is_event_registered event eh); simpl; [|done].
    apply print_if_verbose_queue.
Qed.

Lemma init_well_formed event_names : well_formed (init cfg event_names).
Proof.
  unfold init. set (eh := fold_left _ event_names _).
  destruct (print_if_verbose_store cfg (MsgInit (event_list eh)) eh) as [Hev Hst].
  apply (well_formed_same eh); [done | by rewrite Hst |].
  apply register_all_well_formed. repeat split; constructor.
Qed.

(** X12. [__init__] registers the names it is given, and nothing else:
    a name is registered exactly when it is among them, each starts with
    no callback, the names come in the order given when they are distinct
    (a name given twice is registered once), the queue is empty and every
    event has a list object of its own. *)
Theorem init_registers_names event_names :
  (forall name,
     is_event_registered name (init cfg event_names) = true <-> name ∈ event_names) /\
  (forall name,
     name ∈ event_names -> callbacks_of (init cfg event_names) name = Some []) /\
  NoDup (event_list (init cfg event_names)) /\
  (NoDup event_names -> event_list (init cfg event_names) = event_names) /\
  event_queue (init cfg event_names) = [] /\
  well_formed (init cfg event_names).
Proof.
  pose (eh0 := mkEventHandler [] [] [] []).
  assert (well_formed eh0) as Hwf0 by (repeat split; constructor).
  pose proof (register_all_well_formed event_names eh0 Hwf0) as Hwf.
  pose proof (register_all_names event_names eh0) as Hnames.
  destruct (register_all_empty_lists event_names eh0) as [Hempty Hq]; [constructor|].
  unfold init. fold eh0.
  set (eh := fold_left _ event_names eh0) in *.
  destruct (print_if_verbose_store cfg (MsgInit (event_list eh)) eh) as [Hev Hst].
  assert (forall name, is_event_registered name (print_if_verbose cfg (MsgInit (event_list eh)) eh) = true
                       <-> name ∈ event_names) as Hreg.
  { intros name. unfold is_event_registered. rewrite Hev, dict_contains_keys.
    fold (event_list eh). rewrite Hnames. split; [by intros [?%elem_of_nil|?] | auto]. }
  split; [|split; [|split; [|split; [|split]]]].
  - apply Hreg.
  - intros name Hname%Hreg. unfold callbacks_of, list_at.
    apply dict_contains_true in Hname as [l Hl]. rewrite Hl, Hst. simpl. f_equal.
    destruct (store eh !! l) as [cbs|] eqn:Hcbs; [|done]. simpl.
    by apply (Forall_lookup_1 _ _ _ _ Hempty Hcbs).
  - rewrite event_list_print_if_verbose. apply Hwf.
  - intros Hnodup. rewrite event_list_print_if_verbose.
    unfold eh. rewrite register_all_distinct; [done..|].
    intros name _. apply not_elem_of_nil.
  - by rewrite print_if_verbose_queue.
  - apply (well_formed_same eh); [done | by rewrite Hst | done].
Qed.
End Methods_well_formed.

(** ** What [fire] and [loop] leave alone *)

Section Dispatch_preserves.
Context {World : Type}.
Variable call : pyobj -> pyargs -> pykwargs -> @state World -> result pyobj * @state World.
Variable cfg : Config.

Lemma invoke_registry callback args kwargs all_ok s :
  events (fst (snd (fst (invoke call cfg callback args kwargs all_ok s))))
  = events (fst (snd (call callback args kwargs s))) /\
  store (fst (snd (fst (invoke call cfg callback args kwargs all_ok s))))
  = store (fst (snd (call callback args kwargs s))) /\
  event_queue (fst (snd (fst (invoke call cfg callback args kwargs all_ok s))))
  = event_queue (fst (snd (call callback args kwargs s))) /\
  snd (snd (fst (invoke call cfg callback args kwargs all_ok s)))
  = snd (snd (call callback args kwargs s)).
Proof.
  unfold invoke. destruct (call callback args kwargs s) as [[v|e] s']; simpl; [done|].
  destruct (is_Exception e); [|done].
  destruct (negb (tolerate_exceptions cfg)); [done|].
  pose proof (report_prints cfg callback args e (fst s')) as (Hev & Hst & Hq).
  by destruct (report cfg callback args e (fst s')) as [[[]|e'] eh'].
Qed.

(** A property of the dict and the list objects that the callbacks keep
    is kept by [fire] and [loop]. *)
Variable P : EventHandler -> Prop.
Hypothesis P_registry : forall eh eh',
  events eh' = events eh -> store eh' = store eh -> P eh -> P eh'.
Hypothesis call_P : forall callback args kwargs s,
  P (fst s) -> P (fst (snd (call callback args kwargs s))).

Lemma fire_loop_preserves fuel : forall l i args kwargs all_ok s r s' tr,
  P (fst s) ->
  fire_loop call cfg fuel l i args kwargs all_ok s = Some (r, s', tr) ->
  P (fst s').
Proof.
  induction fuel as [|fuel IH]; intros l i args kwargs all_ok s r s' tr HP; simpl;
    destruct (list_at (fst s) l !! i) as [callback|]; try done;
    try by intros [= _ <- _].
  pose proof (invoke_registry callback args kwargs all_ok s) as (Hev & Hst & _).
  pose proof (call_P callback args kwargs s HP) as HP'.
  destruct (invoke call cfg callback args kwargs all_ok s) as [[v s1] inv].
  simpl in Hev, Hst. apply (P_registry _ (fst s1)) in HP'; [|done..].
  destruct v as [all_ok'|e]; simpl.
  - destruct (fire_loop call cfg fuel l (S i) args kwargs all_ok' s1)
      as [[[r2 s2] tr2]|] eqn:Hrest; [|done].
    simpl. intros [= _ <- _]. by eapply IH.
  - by intros [= _ <- _].
Qed.

Lemma fire_preserves fuel event_name args kwargs s r s' tr :
  P (fst s) ->
  fire call cfg fuel event_name args kwargs s = Some (r, s', tr) ->
  P (fst s').
Proof.
  intros HP. unfold fire.
  destruct (dict_get event_name (events (fst s))) as [l|].
  - by apply fire_loop_preserves.
  - by intros [= _ <- _].
Qed.

Lemma loop_while_preserves rounds : forall fuel all_ok s r s' tr,
  P (fst s) ->
  loop_while call cfg rounds fuel all_ok s = Some (r, s', tr) ->
  P (fst s').
Proof.
  induction rounds as [|rounds IH]; intros fuel all_ok s r s' tr HP; simpl;
    destruct (event_queue (fst s)) as [|[[event_name args] kwargs] rest];
    try done; try by intros [= _ <- _].
  destruct (fire call cfg fuel event_name args kwargs _)
    as [[[r1 s1] tr1]|] eqn:Hfire; [|done].
  apply fire_preserves in Hfire; [|by apply (P_registry (fst s))].
  destruct r1 as [ok|e]; [|by intros [= _ <- _]].
  destruct (loop_while call cfg rounds fuel (ok && all_ok) s1)
    as [[[r2 s2] tr2]|] eqn:Hrest; [|done].
  simpl. intros [= _ <- _]. by eapply IH.
Qed.
End Dispatch_preserves.

(** X13. From [__init__] on and through any calls of the methods ([fire]
    and [loop] among them, with callbacks that keep it too), every
    registered event has a list object of its own: no two events share
    their callbacks, and every reference of the dict is in the store. *)
Theorem reachable_well_formed {World} call cfg :
  (forall callback args kwargs (s : @state World),
     well_formed (fst s) -> well_formed (fst (snd (call callback args kwargs s)))) ->
  forall s, reachable call cfg s -> well_formed (fst s).
Proof.
  intros Hcall s Hreach.
  assert (forall eh eh', events eh' = events eh -> store eh' = store eh ->
            well_formed eh -> well_formed eh') as Hreg.
  { intros eh eh' Hev Hst. apply well_formed_same; [done | by rewrite Hst]. }
  induction Hreach; simpl.
  - apply init_well_formed.
  - done.
  - by apply register_event_well_formed.
  - by apply unregister_event_well_formed.
  - apply clear_events_well_formed.
  - by apply link_well_formed.
  - by apply unlink_well_formed.
  - done.
  - by eapply (fire_preserves call cfg well_formed).
  - by eapply (loop_while_preserves call cfg well_formed).
Qed.

(** ** More on dispatch *)

(** X14. A queued request for a name that is not registered (the queue
    is not emptied by [clear_events], and [append] does not look at the
    name) makes [loop] raise the [KeyError] of [fire]: the request is taken
    off the queue, no callback is invoked, and the requests behind it stay
    queued. *)
Theorem loop_unregistered_request {World} call cfg fuel event_name args kwargs
    rest (s : @state World) :
  event_queue (fst s) = (event_name, args, kwargs) :: rest ->
  is_event_registered event_name (fst s) = false \/
  (exists eh, fst s = snd (clear_events eh)) ->
  0 < fuel ->
  loop call cfg fuel s
  = Some (Raised (KeyError event_name), (set_event_queue rest (fst s), snd s), []).
Proof.
  intros Hq Hreg Hfuel. destruct fuel as [|fuel]; [lia|].
  unfold loop. simpl. rewrite Hq. unfold fire. simpl.
  assert (dict_get event_name (events (fst s)) = None) as ->; [|done].
  destruct Hreg as [Hreg|[eh ->]]; [by apply dict_contains_false | done].
Qed.

Section MoreDispatchFacts.
Context {World : Type}.
Variable call : pyobj -> pyargs -> pykwargs -> @state World -> result pyobj * @state World.
Variable cfg : Config.

(** X15. Firing a registered event that has no callback returns [True]
    at once: nothing is invoked and nothing changes. *)
Theorem fire_no_callbacks fuel event_name args kwargs (s : @state World) :
  callbacks_of (fst s) event_name = Some [] ->
  fire call cfg fuel event_name args kwargs s = Some (Returned true, s, []).
Proof.
  unfold callbacks_of, fire.
  destruct (dict_get event_name (events (fst s))) as [l|]; [|done].
  intros [= Hl]. by destruct fuel; simpl; rewrite Hl.
Qed.

Lemma fire_over_all_return callbacks : forall args kwargs all_ok s,
  Forall (fun callback => forall s, is_raised (fst (call callback args kwargs s)) = false)
    callbacks ->
  fst (fire_over call cfg callbacks args kwargs all_ok s)
  = (Returned all_ok,
     fold_left (fun s callback => snd (call callback args kwargs s)) callbacks s) /\
  map inv_callback (snd (fire_over call cfg callbacks args kwargs all_ok s)) = callbacks.
Proof.
  induction callbacks as [|callback rest IH]; intros args kwargs all_ok s Hret; simpl;
    [done|].
  apply Forall_cons in Hret as [Hcb Hrest]. specialize (Hcb s).
  pose proof (invoke_invocation call cfg callback args kwargs all_ok s) as Hinv.
  unfold invoke in *.
  destruct (call callback args kwargs s) as [[v|e] s1]; [|done]. simpl in *.
  specialize (IH args kwargs all_ok s1 Hrest).
  destruct (fire_over call cfg rest args kwargs all_ok s1) as [[r s2] tr].
  simpl in *. destruct IH as [-> ->]. done.
Qed.

(** X16. In strict and in tolerant mode alike: when the callbacks of a
    registered event return (and leave its list object alone), [fire]
    returns [True], has called each of them once, in order, and leaves
    what these calls, one after the other, leave: it adds nothing of its
    own. *)
Theorem fire_all_return fuel event_name args kwargs (s : @state World) l :
  dict_get event_name (events (fst s)) = Some l ->
  Forall (keeps_list call l args kwargs) (list_at (fst s) l) ->
  Forall (fun callback => forall s, is_raised (fst (call callback args kwargs s)) = false)
    (list_at (fst s) l) ->
  length (list_at (fst s) l) <= fuel ->
  exists tr,
    fire call cfg fuel event_name args kwargs s
    = Some (Returned true,
            fold_left (fun s callback => snd (call callback args kwargs s))
              (list_at (fst s) l) s,
            tr) /\
    map inv_callback tr = list_at (fst s) l.
Proof.
  intros Hl Hkeep Hret Hfuel.
  rewrite (fire_fire_over call cfg fuel event_name args kwargs s l) by done.
  destruct (fire_over_all_return (list_at (fst s) l) args kwargs true s Hret) as [Hr Htr].
  destruct (fire_over call cfg (list_at (fst s) l) args kwargs true s) as [[r s'] tr].
  simpl in *. injection Hr as -> ->. by exists tr.
Qed.

Lemma invoke_untouched callback args kwargs all_ok s :
  (forall s, fst (snd (call callback args kwargs s)) = fst s) ->
  let eh' := fst (snd (fst (invoke call cfg callback args kwargs all_ok s))) in
  events eh' = events (fst s) /\ store eh' = store (fst s) /\
  event_queue eh' = event_queue (fst s) /\
  stream_output eh'
  = stream_output (fst s)
    ++ reported cfg [snd (invoke call cfg callback args kwargs all_ok s)].
Proof.
  intros Hsame. cbv zeta. unfold invoke, reported. specialize (Hsame s).
  destruct s as [eh w].
  destruct (call callback args kwargs (eh, w)) as [[v|e] [eh1 w1]]; simpl in *; subst eh1.
  { destruct (verbose cfg && tolerate_exceptions cfg); by rewrite app_nil_r. }
  unfold report.
  destruct (is_Exception e) eqn:Hexc, (getattr_name callback) as [name|e'] eqn:Hname,
    (tolerate_exceptions cfg), (verbose cfg); simpl;
    rewrite ?Hexc, ?Hname; simpl; rewrite ?Hexc; simpl;
    rewrite ?app_nil_r, <- ?app_assoc; done.
Qed.

Lemma fire_over_untouched callbacks : forall args kwargs all_ok s,
  Forall (fun callback => forall s, fst (snd (call callback args kwargs s)) = fst s)
    callbacks ->
  let eh' := fst (snd (fst (fire_over call cfg callbacks args kwargs all_ok s))) in
  events eh' = events (fst s) /\ store eh' = store (fst s) /\
  event_queue eh' = event_queue (fst s) /\
  stream_output eh'
  = stream_output (fst s)
    ++ reported cfg (snd (fire_over call cfg callbacks args kwargs all_ok s)).
Proof.
  induction callbacks as [|callback rest IH]; intros args kwargs all_ok s Hsame;
    cbv zeta; simpl.
  { unfold reported. destruct (verbose cfg && tolerate_exceptions cfg); simpl;
      by rewrite ?app_nil_r. }
  apply Forall_cons in Hsame as [Hcb Hrest].
  pose proof (invoke_untouched callback args kwargs all_ok s Hcb) as Hinv.
  cbv zeta in Hinv.
  destruct (invoke call cfg callback args kwargs all_ok s) as [[v s1] inv].
  simpl in Hinv. destruct Hinv as (Hev & Hst & Hq & Hout).
  assert (forall tr, reported cfg (inv :: tr) = reported cfg [inv] ++ reported cfg tr)
    as Hcons.
  { intros tr. unfold reported.
    destruct (verbose cfg && tolerate_exceptions cfg); simpl; [|done].
    by rewrite app_nil_r. }
  destruct v as [all_ok'|e]; cbn [fst snd].
  - specialize (IH args kwargs all_ok' s1 Hrest). cbv zeta in IH.
    destruct (fire_over call cfg rest args kwargs all_ok' s1) as [[r s2] tr].
    cbn [fst snd] in *. destruct IH as (Hev2 & Hst2 & Hq2 & Hout2).
    by rewrite Hev2, Hst2, Hq2, Hout2, Hout, (Hcons tr), app_assoc.
  - done.
Qed.

(** X17. What [fire] itself writes.  With callbacks that leave the
    handler as they find it, [fire] calls the callbacks of the list in
    order (all of them when it returns, up to the one that raised when it
    raises), leaves the dict, the list objects and the queue as they are,
    and adds to the output stream the three lines (warning, arguments,
    exception) of each [Exception] that these calls raised and it caught,
    in the order of the calls: nothing at all unless the handler is both
    verbose and tolerant. *)
Theorem fire_prints_caught_exceptions fuel event_name args kwargs (s : @state World) l :
  dict_get event_name (events (fst s)) = Some l ->
  Forall (fun callback => forall s, fst (snd (call callback args kwargs s)) = fst s)
    (list_at (fst s) l) ->
  length (list_at (fst s) l) <= fuel ->
  exists r s' tr,
    fire call cfg fuel event_name args kwargs s = Some (r, s', tr) /\
    calls_from call cfg s tr s' /\
    match r with
    | Returned _ => map inv_callback tr = list_at (fst s) l
    | Raised _ =>
        map inv_callback tr `prefix_of` list_at (fst s) l /\
        exists before inv, tr = before ++ [inv] /\ is_raised (inv_result inv) = true
    end /\
    events (fst s') = events (fst s) /\
    store (fst s') = store (fst s) /\
    event_queue (fst s') = event_queue (fst s) /\
    stream_output (fst s') = stream_output (fst s) ++ reported cfg tr /\
    (verbose cfg && tolerate_exceptions cfg = false -> fst s' = fst s).
Proof.
  intros Hl Hsame Hfuel.
  assert (Forall (keeps_list call l args kwargs) (list_at (fst s) l)) as Hkeep.
  { eapply Forall_impl; [exact Hsame|]. intros callback Hcb s0. simpl. by rewrite Hcb. }
  pose proof (fire_fire_over call cfg fuel event_name args kwargs s l Hl Hkeep Hfuel)
    as Hfire.
  pose proof (fire_over_untouched (list_at (fst s) l) args kwargs true s Hsame) as H.
  pose proof (fire_over_invocations call cfg (list_at (fst s) l) args kwargs true s)
    as (Hpre & _ & Hall).
  cbv zeta in H.
  destruct (fire_over call cfg (list_at (fst s) l) args kwargs true s) as [[r s'] tr].
  simpl in H, Hpre, Hall. destruct H as (Hev & Hst & Hq & Hout).
  exists r, s', tr. split; [done|].
  unfold fire in Hfire. rewrite Hl in Hfire.
  destruct (fire_loop_calls_from call cfg _ _ _ _ _ _ _ _ _ _ Hfire) as [Hrun _].
  pose proof (fire_loop_result call cfg _ _ _ _ _ _ _ _ _ _ Hfire) as Hr.
  split; [done|]. split.
  { destruct r as [ok|e]; [by apply Hall|]. split; [done|].
    destruct Hr as (before & inv & -> & Hraised & _). by exists before, inv. }
  repeat (split; [done|]).
  intros Hquiet. unfold reported in Hout. rewrite Hquiet, app_nil_r in Hout.
  destruct (fst s'), (fst s). simpl in *. by subst.
Qed.
End MoreDispatchFacts.

(** ** The further properties on the host program of [Demo] *)

Lemma Demo_handler_well_formed cfg callbacks :
  well_formed (Demo.handler cfg callbacks).
Proof.
  unfold Demo.handler. apply link_well_formed.
  assert (forall eh, well_formed eh ->
            well_formed (fold_left (fun eh cb => snd (link cfg cb "ping" eh)) callbacks eh))
    as Hfold.
  { induction callbacks as [|cb rest IH]; intros eh Hwf; simpl; [done|].
    by apply IH, link_well_formed. }
  apply Hfold, init_well_formed.
Qed.

Lemma Demo_call_well_formed cfg callback args kwargs (s : @state Demo.log) :
  well_formed (fst s) ->
  well_formed (fst (snd (Demo.call cfg callback args kwargs s))).
Proof.
  destruct s as [eh w]. intros Hwf.
  destruct callback as [[|[|[|[|[|[|[|[|id]]]]]]]] name|id name|self func name|cls id name|cls id];
    simpl; try done.
  - by apply unlink_well_formed.
  - pose proof (link_well_formed cfg Demo.recordB "ping" eh Hwf) as Hlink.
    by destruct (link cfg Demo.recordB "ping" eh).
Qed.

Lemma link_needs_registration_witness :
  link Demo.strict Demo.recordA "nowhere" (Demo.handler Demo.strict [Demo.recordA])
  = (Raised (EventNotAllowedError "nowhere" ["ping"; "pong"]),
     Demo.handler Demo.strict [Demo.recordA]).
Proof.
  apply (link_needs_registration Demo.strict Demo.recordA "nowhere"
           (Demo.handler Demo.strict [Demo.recordA])); reflexivity.
Defined.

Lemma link_new_callback_witness :
  fst (link Demo.strict Demo.recordB "ping" (Demo.handler Demo.strict [Demo.recordA]))
  = Returned true /\
  callbacks_of (snd (link Demo.strict Demo.recordB "ping"
                       (Demo.handler Demo.strict [Demo.recordA]))) "ping"
  = Some [Demo.recordA; Demo.recordB].
Proof.
  destruct (link_new_callback Demo.strict Demo.recordB "ping"
              (Demo.handler Demo.strict [Demo.recordA]) 0 [Demo.recordA])
    as (Hr & Hcbs & _).
  - reflexivity.
  - reflexivity.
  - reflexivity.
  - apply not_elem_of_cons. split; [discriminate | apply not_elem_of_nil].
  - split; [exact Hr | exact Hcbs].
Defined.

Lemma unlink_linked_callback_witness :
  fst (unlink Demo.strict Demo.recordA "ping"
         (Demo.handler Demo.strict [Demo.recordA; Demo.recordB])) = Returned true /\
  callbacks_of (snd (unlink Demo.strict Demo.recordA "ping"
                       (Demo.handler Demo.strict [Demo.recordA; Demo.recordB]))) "ping"
  = Some [Demo.recordB].
Proof.
  destruct (unlink_linked_callback Demo.strict Demo.recordA "ping"
              (Demo.handler Demo.strict [Demo.recordA; Demo.recordB]) 0
              [Demo.recordA; Demo.recordB])
    as (Hr & Hcbs & _).
  - reflexivity.
  - reflexivity.
  - apply list_elem_of_here.
  - split; [exact Hr | exact Hcbs].
Defined.


Lemma link_unlink_round_trip_witness :
  unlink Demo.strict Demo.recordB "ping"
    (snd (link Demo.strict Demo.recordB "ping" (Demo.handler Demo.strict [Demo.recordA])))
  = (Returned true, Demo.handler Demo.strict [Demo.recordA]).
Proof.
  apply (link_unlink_round_trip Demo.strict Demo.recordB "ping"
           (Demo.handler Demo.strict [Demo.recordA]) 0 [Demo.recordA]).
  - reflexivity.
  - reflexivity.
  - reflexivity.
  - apply not_elem_of_cons. split; [discriminate | apply not_elem_of_nil].
Defined.

Lemma link_unlink_other_events_witness :
  callbacks_of (snd (link Demo.strict Demo.recordA "ping"
                       (Demo.handler Demo.strict []))) "pong"
  = Some [Demo.recordB] /\
  callbacks_of (snd (unlink Demo.strict Demo.recordA "ping"
                       (Demo.handler Demo.strict []))) "pong"
  = Some [Demo.recordB].
Proof.
  apply (link_unlink_other_events Demo.strict Demo.recordA "ping" "pong"
           (Demo.handler Demo.strict [])).
  - apply Demo_handler_well_formed.
  - discriminate.
Defined.

Lemma unregister_event_removes_witness :
  fst (unregister_event Demo.strict "ping" (Demo.handler Demo.strict [Demo.recordA]))
  = true /\
  is_event_registered "ping"
    (snd (unregister_event Demo.strict "ping" (Demo.handler Demo.strict [Demo.recordA])))
  = false.
Proof.
  destruct (unregister_event_removes Demo.strict "ping"
              (Demo.handler Demo.strict [Demo.recordA])) as [Hremoved _].
  - apply (Demo_handler_well_formed Demo.strict [Demo.recordA]).
  - destruct (Hremoved eq_refl) as (Hr & Hgone & _). split; [exact Hr | exact Hgone].
Defined.

Lemma register_unregister_round_trip_witness :
  events (snd (unregister_event Demo.strict "pang"
                 (snd (register_event Demo.strict "pang"
                         (Demo.handler Demo.strict [Demo.recordA])))))
  = [("ping", 0); ("pong", 1)].
Proof.
  apply (register_unregister_round_trip Demo.strict "pang"
           (Demo.handler Demo.strict [Demo.recordA])).
  reflexivity.
Defined.

Lemma unregister_register_drops_callbacks_witness :
  callbacks_of (Demo.handler Demo.strict [Demo.recordA]) "ping" = Some [Demo.recordA] /\
  callbacks_of (snd (register_event Demo.strict "ping"
                       (snd (unregister_event Demo.strict "ping"
                               (Demo.handler Demo.strict [Demo.recordA]))))) "ping"
  = Some [].
Proof.
  split; [reflexivity|].
  apply (unregister_register_drops_callbacks Demo.strict "ping"
           (Demo.handler Demo.strict [Demo.recordA])).
  apply (Demo_handler_well_formed Demo.strict [Demo.recordA]).
Defined.

Lemma reachable_well_formed_witness :
  well_formed (Demo.handler Demo.strict [Demo.once; Demo.recordB]).
Proof.
  apply (reachable_well_formed (Demo.call Demo.strict) Demo.strict
           (Demo_call_well_formed Demo.strict)
           (Demo.handler Demo.strict [Demo.once; Demo.recordB], [])).
  apply Demo_handler_reachable.
Defined.

Lemma loop_unregistered_request_witness :
  loop (Demo.call Demo.strict) Demo.strict 1
    (snd (clear_events
            (append_all [("ping", [Demo.x], []); ("pong", [], [])]
               (Demo.handler Demo.strict [Demo.recordA]))), [])
  = Some (Raised (KeyError "ping"),
          (snd (clear_events
                  (append_all [("pong", [], [])]
                     (Demo.handler Demo.strict [Demo.recordA]))), []),
          []).
Proof.
  apply (loop_unregistered_request (Demo.call Demo.strict) Demo.strict 1
           "ping" [Demo.x] [] [("pong", [], [])]
           (snd (clear_events
                   (append_all [("ping", [Demo.x], []); ("pong", [], [])]
                      (Demo.handler Demo.strict [Demo.recordA]))), [])).
  - reflexivity.
  - left. reflexivity.
  - lia.
Defined.

Lemma fire_no_callbacks_witness :
  fire (Demo.call Demo.strict) Demo.strict 0 "ping" [Demo.x] []
    (Demo.handler Demo.strict [], [])
  = Some (Returned true, (Demo.handler Demo.strict [], []), []).
Proof.
  apply (fire_no_callbacks (Demo.call Demo.strict) Demo.strict 0 "ping" [Demo.x] []
           (Demo.handler Demo.strict [], [])).
  reflexivity.
Defined.

Lemma fire_all_return_witness :
  exists tr,
    fire (Demo.call Demo.tolerant) Demo.tolerant 2 "ping" [Demo.x] []
      (Demo.handler Demo.tolerant [Demo.recordA; Demo.recordB], [])
    = Some (Returned true,
            (Demo.handler Demo.tolerant [Demo.recordA; Demo.recordB],
             [("recordA", [Demo.x]); ("recordB", [Demo.x])]),
            tr) /\
    map inv_callback tr = [Demo.recordA; Demo.recordB].
Proof.
  apply (fire_all_return (Demo.call Demo.tolerant) Demo.tolerant 2 "ping" [Demo.x] []
           (Demo.handler Demo.tolerant [Demo.recordA; Demo.recordB], []) 0).
  - reflexivity.
  - repeat constructor; intros [eh w]; reflexivity.
  - repeat constructor; intros [eh w]; reflexivity.
  - simpl. lia.
Defined.

Lemma fire_prints_caught_exceptions_witness :
  exists r s' tr,
    fire (Demo.call Demo.tolerant_verbose) Demo.tolerant_verbose 2 "ping" [Demo.x] []
      (Demo.handler Demo.tolerant_verbose [Demo.recordA; Demo.failing], [])
    = Some (r, s', tr) /\
    calls_from (Demo.call Demo.tolerant_verbose) Demo.tolerant_verbose
      (Demo.handler Demo.tolerant_verbose [Demo.recordA; Demo.failing], []) tr s' /\
    stream_output (fst s')
    = [MsgInit ["ping"; "pong"]] ++ reported Demo.tolerant_verbose tr.
Proof.
  destruct (fire_prints_caught_exceptions (Demo.call Demo.tolerant_verbose)
              Demo.tolerant_verbose 2 "ping" [Demo.x] []
              (Demo.handler Demo.tolerant_verbose [Demo.recordA; Demo.failing], []) 0)
    as (r & s' & tr & Hfire & Hrun & _ & _ & _ & _ & Hout & _).
  - reflexivity.
  - repeat constructor; intros [eh w]; reflexivity.
  - simpl. lia.
  - exists r, s', tr. split; [exact Hfire | split; [exact Hrun | exact Hout]].
Defined.

(** What that run prints. *)
Example fire_prints_warning :
  (fun o => stream_output (fst (snd (fst o)))) <$>
  fire (Demo.call Demo.tolerant_verbose) Demo.tolerant_verbose 2 "ping" [Demo.x] []
    (Demo.handler Demo.tolerant_verbose [Demo.recordA; Demo.failing], [])
  = Some [MsgInit ["ping"; "pong"]; MsgWarning "failing"; MsgArguments [Demo.x];
          MsgException (OtherException "ValueError" "boom")].
Proof. reflexivity. Qed.

(** * The chat room *)

Import Chat.

Lemma str_of_print_line line w o : str_of (print_line line w) o = str_of w o.
Proof. by destruct o. Qed.

Lemma str_of_pass_str s w : str_of (snd (pass_str s w)) (fst (pass_str s w)) = Some s.
Proof. simpl. by rewrite lookup_app_r, Nat.sub_diag. Qed.

Lemma str_of_pass_str_older s w o v :
  str_of w o = Some v -> str_of (snd (pass_str s w)) o = Some v.
Proof.
  destruct o as [| | | |cls i]; try done. simpl.
  destruct (decide (cls = "str")); [|done]. intros Hv.
  rewrite lookup_app_l; [done|]. by eapply lookup_lt_Some.
Qed.

Section ChatFacts.
Variable name : string.
Variable say' : string -> option string -> @state world -> result pyobj * @state world.

Lemma callbacks_on_newuser_join u user s :
  str_of (snd s) u = Some user ->
  callbacks name say' on_newuser_join [u] [] s
  = (Returned none, (fst s, print_line (join_line user (length (user_list (snd s)))) (snd s))).
Proof. intros Hu. unfold callbacks. simpl. by rewrite Hu. Qed.

Lemma callbacks_saludate u user s :
  str_of (snd s) u = Some user ->
  callbacks name say' saludate_new_user [u] [] s
  = returns_None (say' "bot" (Some (hello user)) s).
Proof. intros Hu. unfold callbacks. simpl. by rewrite Hu. Qed.

Lemma callbacks_on_message u mo user msg s :
  str_of (snd s) u = Some user -> str_of (snd s) mo = Some msg ->
  callbacks name say' on_message [u; mo] [] s
  = (Returned none, (fst s, print_line (message_line user msg) (snd s))).
Proof. intros Hu Hm. unfold callbacks. simpl. by rewrite Hu, Hm. Qed.

Lemma callbacks_read_user_message u mo user msg s :
  str_of (snd s) u = Some user -> str_of (snd s) mo = Some msg ->
  callbacks name say' read_user_message [u; mo] [] s
  = if decide (user = "bot") then (Returned none, s)
    else if decide (msg = question name) then
      returns_None
        (if Nat.ltb (length (user_list (snd s))) 1 then say' name (Some (nope user)) s
         else if Nat.eqb (length (user_list (snd s))) 2 then
           say' name (Some (yes user (Z.of_nat (length (user_list (snd s))) - 1))) s
         else say' name (Some (yes user (Z.of_nat (length (user_list (snd s))) - 2))) s)
    else (Returned none, s).
Proof. intros Hu Hm. unfold callbacks. simpl. by rewrite Hu, Hm. Qed.

Lemma callbacks_returns_None callback args kwargs s v :
  fst (callbacks name say' callback args kwargs s) = Returned v -> v = none.
Proof.
  unfold callbacks, returns_None.
  destruct (mapM (str_of (snd s)) args) as [[|user [|msg [|? ?]]]|]; try done;
    destruct kwargs; try done; repeat case_decide; simpl; try done;
    try (by intros [= <-]); repeat case_match; simpl; try done; by intros [= <-].
Qed.

Hypothesis say'_untouched : forall user msg s, fst (snd (say' user msg s)) = fst s.

Lemma callbacks_untouched callback args kwargs s :
  fst (snd (callbacks name say' callback args kwargs s)) = fst s.
Proof.
  unfold callbacks, returns_None.
  destruct (mapM (str_of (snd s)) args) as [[|user [|msg [|? ?]]]|]; try done;
    destruct kwargs; try done; repeat case_decide; simpl; try done;
    repeat case_match; simpl; by rewrite ?say'_untouched.
Qed.
End ChatFacts.

Lemma fire_loop_strict_untouched {World} (call : pyobj -> pyargs -> pykwargs -> @state World -> result pyobj * @state World) cfg fuel :
  tolerate_exceptions cfg = false ->
  (forall callback args kwargs s, fst (snd (call callback args kwargs s)) = fst s) ->
  forall l i args kwargs all_ok s r s' tr,
    fire_loop call cfg fuel l i args kwargs all_ok s = Some (r, s', tr) ->
    fst s' = fst s.
Proof.
  intros Hstrict Hcall.
  induction fuel as [|fuel IH]; intros l i args kwargs all_ok s r s' tr; simpl;
    destruct (list_at (fst s) l !! i) as [callback|]; try done;
    try by intros [= _ <- _].
  unfold invoke. specialize (Hcall callback args kwargs s).
  destruct (call callback args kwargs s) as [[v|e] s1]; simpl in *.
  - destruct (fire_loop call cfg fuel l (S i) args kwargs all_ok s1)
      as [[[r2 s2] tr2]|] eqn:Hrest; [|done].
    simpl. intros [= _ <- _]. apply IH in Hrest. congruence.
  - rewrite Hstrict. simpl. destruct (is_Exception e); by intros [= _ <- _].
Qed.

Lemma say_untouched depth : forall name user msg s,
  fst (snd (say depth name user msg s)) = fst s.
Proof.
  induction depth as [|depth IH]; intros name user msg s; simpl; [done|].
  assert (forall event args s0,
            fst (snd (fired (fire (callbacks name (say depth name)) defaults 2 event args [] s0) s0))
            = fst s0) as Hfired.
  { intros event args s0. unfold fired, fire.
    destruct (dict_get event (events (fst s0))) as [l|]; [|done].
    destruct (fire_loop _ _ _ _ _ _ _ _ _) as [[[[ok|e] s1] tr]|] eqn:Hloop; try done;
      apply fire_loop_strict_untouched in Hloop; try done;
      intros; by apply callbacks_untouched. }
  destruct (negb (dict_contains user (users (snd s)))).
  - pose proof (Hfired "onNewuser"
      [PyOther "str" (length (strs (snd s)))]
      (fst s, snd (pass_str user (set_users (dict_set user [] (users (snd s))) (snd s)))))
      as H1.
    simpl in H1 |- *.
    destruct (fired _ _) as [[v|e] s1]; simpl in *; [|done].
    destruct msg as [m|]; [|done]. destruct (decide (m = "")); [done|].
    rewrite <- H1. apply (Hfired "onMessage" _ (fst s1, _)).
  - destruct msg as [m|]; [|done]. destruct (decide (m = "")); [done|].
    apply (Hfired "onMessage" _ (fst s, _)).
Qed.

(** [ChatRoom()] then [ChatBot(chat)]: each event holds the method of
    the room, then the method of the bot. *)
Lemma handler_eq :
  handler = mkEventHandler [("onNewuser", 0); ("onMessage", 1)]
              [[on_newuser_join; saludate_new_user]; [on_message; read_user_message]] [] [].
Proof. reflexivity. Qed.

Section RoomFacts.
Variable name : string.
Variable say' : string -> option string -> @state world -> result pyobj * @state world.
Hypothesis say'_untouched : forall user msg s, fst (snd (say' user msg s)) = fst s.

Lemma fired_onNewuser u user w :
  str_of w u = Some user ->
  fired (fire (callbacks name say') defaults 2 "onNewuser" [u] [] (handler, w)) (handler, w)
  = returns_None
      (say' "bot" (Some (hello user))
         (handler, print_line (join_line user (length (user_list w))) w)).
Proof.
  intros Hu. unfold fire. rewrite handler_eq. simpl.
  unfold invoke. rewrite (callbacks_on_newuser_join name say' u user) by done. simpl.
  rewrite (callbacks_saludate name say' u user) by (simpl; by rewrite str_of_print_line).
  rewrite <- handler_eq.
  pose proof (say'_untouched "bot" (Some (hello user))
                (handler, print_line (join_line user (length (user_list w))) w)) as Hsame.
  unfold returns_None.
  destruct (say' "bot" _ _) as [[v|e] [eh1 w1]]; simpl in *; subst eh1.
  - by rewrite handler_eq.
  - by destruct (is_Exception e).
Qed.

Lemma fired_onMessage u mo user m w :
  str_of w u = Some user -> str_of w mo = Some m ->
  fired (fire (callbacks name say') defaults 2 "onMessage" [u; mo] [] (handler, w)) (handler, w)
  = callbacks name say' read_user_message [u; mo] []
      (handler, print_line (message_line user m) w).
Proof.
  intros Hu Hm. unfold fire. rewrite handler_eq. simpl.
  unfold invoke. rewrite (callbacks_on_message name say' u mo user m) by done. simpl.
  rewrite <- handler_eq.
  pose proof (callbacks_untouched name say' say'_untouched read_user_message [u; mo] []
                (handler, print_line (message_line user m) w)) as Hsame.
  pose proof (callbacks_returns_None name say' read_user_message [u; mo] []
                (handler, print_line (message_line user m) w)) as Hnone.
  destruct (callbacks name say' read_user_message [u; mo] [] _) as [[v|e] [eh1 w1]];
    simpl in *; subst eh1.
  - rewrite (Hnone v eq_refl). by rewrite handler_eq.
  - by destruct (is_Exception e).
Qed.
End RoomFacts.

Lemma str_of_posted user m w :
  str_of (posted user m w) (PyOther "str" (length (strs w))) = Some user /\
  str_of (posted user m w) (PyOther "str" (S (length (strs w)))) = Some m.
Proof.
  unfold posted. simpl. split.
  - rewrite lookup_app_l by (rewrite length_app; simpl; lia).
    by rewrite lookup_app_r, Nat.sub_diag.
  - rewrite lookup_app_r by (rewrite length_app; simpl; lia).
    rewrite length_app. simpl.
    by replace (S (length (strs w)) - (length (strs w) + 1)) with 0 by lia.
Qed.

Section Say.
Variable name : string.

(** The message part of [say], for a user the room knows. *)
Lemma say_message depth user m w :
  dict_contains user (users w) = true ->
  m <> "" ->
  say (S depth) name user (Some m) (handler, w)
  = if decide (user = "bot") then (Returned none, (handler, posted user m w))
    else if decide (m = question name) then
      returns_None
        (say depth name name
           (Some (answer user (length (user_list (posted user m w)))))
           (handler, posted user m w))
    else (Returned none, (handler, posted user m w)).
Proof.
  intros Hreg Hm. simpl. rewrite Hreg. simpl. rewrite decide_False by done.
  destruct (str_of_posted user m w) as [Hu Hmo].
  rewrite length_app. simpl. rewrite Nat.add_1_r.
  rewrite (fired_onMessage name (say depth name) (fun u m s => say_untouched depth name u m s)
             (PyOther "str" (length (strs w))) (PyOther "str" (S (length (strs w)))) user m).
  - rewrite (callbacks_read_user_message name (say depth name) _ _ user m) by done.
    unfold answer, posted. simpl. repeat case_decide; try done. by repeat case_match.
  - exact Hu.
  - exact Hmo.
Qed.
End Say.

Lemma hello_nonempty user : hello user <> "".
Proof. done. Qed.

Lemma answer_nonempty user n : answer user n <> "".
Proof. unfold answer. by repeat case_match. Qed.

Lemma posted_fields user m w :
  stdout (posted user m w) = stdout w ++ [message_line user m] /\
  messages (posted user m w) = messages w ++ [(user, m)] /\
  users (posted user m w) = users w.
Proof. done. Qed.

Lemma say_bot depth name m w :
  dict_contains "bot" (users w) = true -> m <> "" ->
  say (S depth) name "bot" (Some m) (handler, w) = (Returned none, (handler, posted "bot" m w)).
Proof. intros Hbot Hm. by rewrite say_message. Qed.

(** X18. When a user the room knows says something that is not the
    question to the bot (or when the bot itself speaks), [say] returns and
    the room has printed that one line, [user says: msg], and recorded the
    message; the users and the handler are as before. *)
Theorem say_plain_message name depth user m w :
  dict_contains user (users w) = true ->
  m <> "" ->
  user = "bot" \/ m <> question name ->
  exists w',
    say (S depth) name user (Some m) (handler, w) = (Returned none, (handler, w')) /\
    stdout w' = stdout w ++ [message_line user m] /\
    messages w' = messages w ++ [(user, m)] /\
    users w' = users w.
Proof.
  intros Hreg Hm Hplain. exists (posted user m w). split; [|done].
  rewrite say_message by done. repeat case_decide; try done. by destruct Hplain.
Qed.

Lemma user_list_new user w w' :
  users w' = users w ++ [(user, [])] -> user <> "bot" ->
  length (user_list w') = S (length (user_list w)).
Proof.
  intros Husers Hne. unfold user_list, dict_keys. rewrite Husers, map_app.
  rewrite filter_app, length_app. simpl. rewrite filter_cons_True by done. simpl. lia.
Qed.

Lemma say_welcome name depth user w :
  dict_contains user (users w) = false ->
  dict_contains "bot" (users w) = true ->
  exists w',
    say (S (S depth)) name user None (handler, w) = (Returned none, (handler, w')) /\
    users w' = users w ++ [(user, [])] /\
    stdout w' = stdout w ++ [join_line user (S (length (user_list w)));
                             message_line "bot" (hello user)] /\
    messages w' = messages w ++ [("bot", hello user)].
Proof.
  intros Hnew Hbot.
  assert (user <> "bot") as Hne by (intros ->; congruence).
  apply dict_contains_false in Hnew.
  eexists. split.
  - change (say (S (S depth)) name user None (handler, w))
      with (let '(r, s1) :=
              if negb (dict_contains user (users w)) then
                fired (fire (callbacks name (say (S depth) name)) defaults 2 "onNewuser"
                         [PyOther "str" (length (strs w))] []
                         (handler, snd (pass_str user (set_users (dict_set user [] (users w)) w))))
                  (handler, snd (pass_str user (set_users (dict_set user [] (users w)) w)))
              else (Returned none, (handler, w)) in
            match r with Raised e => (Raised e, s1) | Returned _ => (Returned none, s1) end).
    rewrite (proj2 (dict_contains_false user (users w)) Hnew). simpl negb. cbv iota.
    rewrite (fired_onNewuser name (say (S depth) name)
               (fun u m s => say_untouched (S depth) name u m s) _ user)
      by (simpl; by rewrite lookup_app_r, Nat.sub_diag).
    rewrite say_bot; [reflexivity| |apply hello_nonempty].
    simpl. apply dict_contains_true. rewrite dict_get_set_ne by done.
    by apply dict_contains_true.
  - simpl. rewrite dict_set_new by done. repeat split.
    rewrite (user_list_new user w) by done. by rewrite <- app_assoc.
Qed.

Lemma say_split depth name user msg s :
  fst (say (S depth) name user None s) = Returned none ->
  dict_contains user (users (snd (snd (say (S depth) name user None s)))) = true ->
  say (S depth) name user msg s
  = say (S depth) name user msg (snd (say (S depth) name user None s)).
Proof.
  simpl.
  destruct (if negb (dict_contains user (users (snd s))) then _ else _) as [[v|e] s1];
    simpl; [|done].
  intros _ Hreg. by rewrite Hreg.
Qed.

(** X19. The first [say] of a new user, with a message or without,
    makes the room register the user and fire ["onNewuser"]: the room
    prints the join line with the new number of users, then the bot, from
    inside that [fire], says its welcome through [say], which the room
    prints and records as a message of ['bot'].  From the state [w1] this
    leaves, the call goes on as the [say] of a user the room knows: with
    no message (or an empty one) it returns there; a message that is not
    the question to the bot is printed and recorded after the welcome. *)
Theorem say_new_user name depth user msg w :
  dict_contains user (users w) = false ->
  dict_contains "bot" (users w) = true ->
  exists w1,
    users w1 = users w ++ [(user, [])] /\
    stdout w1 = stdout w ++ [join_line user (S (length (user_list w)));
                             message_line "bot" (hello user)] /\
    messages w1 = messages w ++ [("bot", hello user)] /\
    say (S (S depth)) name user msg (handler, w)
    = say (S (S depth)) name user msg (handler, w1) /\
    match msg with
    | None => say (S (S depth)) name user msg (handler, w) = (Returned none, (handler, w1))
    | Some m =>
        (m = "" ->
         say (S (S depth)) name user msg (handler, w) = (Returned none, (handler, w1))) /\
        (m <> "" -> m <> question name ->
         exists w',
          say (S (S depth)) name user msg (handler, w) = (Returned none, (handler, w')) /\
          users w' = users w ++ [(user, [])] /\
          stdout w' = stdout w ++ [join_line user (S (length (user_list w)));
                                   message_line "bot" (hello user);
                                   message_line user m] /\
          messages w' = messages w ++ [("bot", hello user); (user, m)])
    end.
Proof.
  intros Hnew Hbot.
  destruct (say_welcome name depth user w Hnew Hbot) as (w1 & Hsay1 & Husers1 & Hout1 & Hmsg1).
  assert (dict_contains user (users w1) = true) as Hreg1.
  { rewrite Husers1. apply dict_contains_keys. unfold dict_keys. rewrite map_app.
    apply elem_of_app. right. apply list_elem_of_here. }
  assert (say (S (S depth)) name user msg (handler, w)
          = say (S (S depth)) name user msg (handler, w1)) as Hgo.
  { rewrite say_split by (by rewrite Hsay1). by rewrite Hsay1. }
  exists w1. repeat (split; [done|]). destruct msg as [m|].
  - split.
    + intros ->. rewrite Hgo. simpl. by rewrite Hreg1.
    + intros Hm Hq. exists (posted user m w1). rewrite Hgo, say_message by done.
      rewrite decide_False by (intros ->; congruence). rewrite decide_False by done.
      split; [done|]. simpl. rewrite Husers1, Hout1, Hmsg1, <- !app_assoc. done.
  - rewrite Hgo. simpl. by rewrite Hreg1.
Qed.

Lemma user_list_registered user w :
  dict_contains user (users w) = true -> user <> "bot" -> 1 <= length (user_list w).
Proof.
  intros Hreg%dict_contains_keys Hne.
  assert (user ∈ user_list w) as Hin by (by apply list_elem_of_filter).
  destruct (user_list w); [by apply elem_of_nil in Hin | simpl; lia].
Qed.

(** X20. When a user the room knows asks the bot its question, the room
    prints the question and then the answer of the bot, and records both.
    The asker is a user, so the count [n] of users is at least 1 and the
    answer is never the ["Nope"] one: it reports [1] when [n] is 2 and
    [n - 2] otherwise, which is [-1] for a user alone in the room. *)
Theorem say_question depth user w :
  dict_contains user (users w) = true ->
  user <> "bot" ->
  dict_contains "bot" (users w) = true ->
  exists w' reply,
    say (S (S depth)) "bot" user (Some (question "bot")) (handler, w)
    = (Returned none, (handler, w')) /\
    1 <= length (user_list w) /\
    reply = yes user (if Nat.eqb (length (user_list w)) 2 then 1
                      else Z.of_nat (length (user_list w)) - 2) /\
    stdout w' = stdout w ++ [message_line user (question "bot"); message_line "bot" reply] /\
    messages w' = messages w ++ [(user, question "bot"); ("bot", reply)] /\
    users w' = users w.
Proof.
  intros Hreg Hne Hbot.
  pose proof (user_list_registered user w Hreg Hne) as Hn.
  exists (posted "bot" (answer user (length (user_list w))) (posted user (question "bot") w)),
    (answer user (length (user_list w))).
  split; [|split; [done|split]].
  - rewrite say_message by done. rewrite decide_False, decide_True by done.
    rewrite say_bot; [done..|apply answer_nonempty].
  - unfold answer. destruct (Nat.ltb_spec (length (user_list w)) 1) as [?|_]; [lia|].
    destruct (Nat.eqb_spec (length (user_list w)) 2) as [->|_]; done.
  - simpl. by rewrite <- !app_assoc.
Qed.

Lemma say_registered depth user msg w :
  dict_contains user (users w) = true ->
  dict_contains "bot" (users w) = true ->
  exists w',
    say (S (S depth)) "bot" user msg (handler, w) = (Returned none, (handler, w')) /\
    users w' = users w /\
    stdout w `prefix_of` stdout w' /\
    messages w `prefix_of` messages w'.
Proof.
  intros Hreg Hbot. destruct msg as [m|].
  2: { exists w. simpl. by rewrite Hreg. }
  destruct (decide (m = "")) as [->|Hm].
  { exists w. simpl. by rewrite Hreg. }
  rewrite say_message by done.
  destruct (decide (user = "bot")) as [->|Hne].
  { exists (posted "bot" m w). repeat split; [by apply prefix_app_r..]. }
  destruct (decide (m = question "bot")) as [->|Hq].
  2: { exists (posted user m w). repeat split; [by apply prefix_app_r..]. }
  rewrite say_bot; [|done|apply answer_nonempty].
  eexists. split; [done|]. simpl. repeat split.
  - rewrite <- app_assoc. by apply prefix_app_r.
  - rewrite <- app_assoc. by apply prefix_app_r.
Qed.

(** X21. In the room set up by [ChatRoom()] and [ChatBot(chat)], [say]
    always returns: whatever the user and the message, two nested calls of
    [say] are all it needs (the bot does not answer what it says itself),
    no exception leaves [fire], the handler is as it was, the user is
    registered afterwards, ['bot'] still is, and what was printed and
    recorded before is still there. *)
Theorem say_never_raises depth user msg w :
  dict_contains "bot" (users w) = true ->
  exists w',
    say (S (S depth)) "bot" user msg (handler, w) = (Returned none, (handler, w')) /\
    dict_contains "bot" (users w') = true /\
    dict_contains user (users w') = true /\
    stdout w `prefix_of` stdout w' /\
    messages w `prefix_of` messages w'.
Proof.
  intros Hbot. destruct (dict_contains user (users w)) eqn:Hreg.
  - destruct (say_registered depth user msg w Hreg Hbot) as (w' & Hsay & Husers & Hout & Hmsg).
    exists w'. rewrite Husers. done.
  - destruct (say_welcome "bot" depth user w Hreg Hbot) as (w1 & Hsay1 & Husers1 & Hout1 & Hmsg1).
    assert (dict_contains user (users w1) = true) as Hreg1.
    { rewrite Husers1. apply dict_contains_keys. unfold dict_keys. rewrite map_app.
      apply elem_of_app. right. apply list_elem_of_here. }
    assert (dict_contains "bot" (users w1) = true) as Hbot1.
    { rewrite Husers1. apply dict_contains_keys. unfold dict_keys. rewrite map_app.
      apply elem_of_app. left. by apply dict_contains_keys. }
    rewrite say_split by (by rewrite Hsay1).
    rewrite Hsay1. simpl snd.
    destruct (say_registered depth user msg w1 Hreg1 Hbot1)
      as (w' & Hsay & Husers & Hout & Hmsg).
    exists w'. rewrite Hsay, Husers. repeat split; try done.
    + etrans; [|exact Hout]. rewrite Hout1. by apply prefix_app_r.
    + etrans; [|exact Hmsg]. rewrite Hmsg1. by apply prefix_app_r.
Qed.

(** The output of the program. *)
Example main_output :
  fst (main 2) = Returned none /\
  stdout (snd (snd (main 2)))
  = ["** ChatRoom info ** user sergio has joined the chat ** 1 user/s **";
     message_line "bot" "Hello sergio, welcome to the chat room.";
     message_line "sergio" "Hello World!";
     message_line "sergio" "Hey bot, are there anyone here?";
     message_line "bot" "Yes sergio. there are -1 non bots users in the room, you, and me.";
     "** ChatRoom info ** user david has joined the chat ** 2 user/s **";
     message_line "bot" "Hello david, welcome to the chat room.";
     message_line "david" "Hello everybody!";
     message_line "david" "Hey bot, are there anyone here?";
     message_line "bot" "Yes david. there are 1 non bots users in the room, you, and me.";
     message_line "sergio" "Hi david!";
     "** ChatRoom info ** user kate has joined the chat ** 3 user/s **";
     message_line "bot" "Hello kate, welcome to the chat room.";
     message_line "kate" "Hey bot, are there anyone here?";
     message_line "bot" "Yes kate. there are 1 non bots users in the room, you, and me."].
Proof. split; vm_compute; reflexivity. Qed.

Lemma say_plain_message_witness :
  exists w',
    say 1 "bot" "bot" (Some "Hi") room = (Returned none, (handler, w')) /\
    stdout w' = [message_line "bot" "Hi"] /\
    messages w' = [("bot", "Hi")] /\
    users w' = [("bot", [])].
Proof.
  apply (say_plain_message "bot" 0 "bot" "Hi" (snd room)).
  - reflexivity.
  - discriminate.
  - left. reflexivity.
Defined.

Lemma say_new_user_witness :
  exists w',
    say 2 "bot" "sergio" (Some "Hello World!") room = (Returned none, (handler, w')) /\
    users w' = [("bot", []); ("sergio", [])] /\
    stdout w' = [join_line "sergio" 1; message_line "bot" (hello "sergio");
                 message_line "sergio" "Hello World!"] /\
    messages w' = [("bot", hello "sergio"); ("sergio", "Hello World!")].
Proof.
  destruct (say_new_user "bot" 0 "sergio" (Some "Hello World!") (snd room))
    as (w1 & _ & _ & _ & _ & _ & Hplain); [reflexivity..|].
  apply Hplain; discriminate.
Defined.

Lemma say_question_witness :
  exists w' reply,
    say 2 "bot" "sergio" (Some (question "bot"))
      (handler, mkWorld [] [("bot", []); ("sergio", [])] [] [])
    = (Returned none, (handler, w')) /\
    1 <= 1 /\
    reply = yes "sergio" (-1) /\
    stdout w' = [message_line "sergio" (question "bot"); message_line "bot" reply] /\
    messages w' = [("sergio", question "bot"); ("bot", reply)] /\
    users w' = [("bot", []); ("sergio", [])].
Proof.
  apply (say_question 0 "sergio" (mkWorld [] [("bot", []); ("sergio", [])] [] [])).
  - reflexivity.
  - discriminate.
  - reflexivity.
Defined.

Lemma say_never_raises_witness :
  exists w',
    say 2 "bot" "sergio" (Some "Hello World!") room = (Returned none, (handler, w')) /\
    dict_contains "bot" (users w') = true /\
    dict_contains "sergio" (users w') = true /\
    stdout (snd room) `prefix_of` stdout w' /\
    messages (snd room) `prefix_of` messages w'.
Proof.
  apply (say_never_raises 0 "sergio" (Some "Hello World!") (snd room)).
  reflexivity.
Defined.
